(** * NetDash: the measurement and aggregation engine

    A shallow embedding of the speed-test engine of the dashboard
    (release v3.5.0, and the run operation of release v3.0.0), followed
    by the properties the specification states about it.

    Conventions of the embedding.
    - A JavaScript [number] that holds a measured duration or a derived
      bandwidth is a rational [Q]: arithmetic is exact, so the development
      speaks about the algorithm and not about binary rounding.  [Qdiv] is
      total ([x / 0 == 0]) where JavaScript yields [Infinity]: a transfer
      of zero duration, which a download of several megabytes never is,
      gets the sample 0 here.
    - Every figure the engine stores in [Metrics] is the result of
      [Math.round] or an integer constant, so those fields are [Z].
    - An [await] either resolves, rejects, or has not completed yet; the
      outcomes of the successive awaits of a run are given by a [World].
    - State setters are recorded as a list of [Action]s in program order
      and then interpreted on the component state. *)

From Stdlib Require Import String QArith Qround Qminmax ZArith List Bool.
From Stdlib Require Import Lia Lqa Permutation Sorted DecimalString.
Import ListNotations.

Local Open Scope Z_scope.

(* ------------------------------------------------------------------ *)
(** ** JavaScript primitives used by the engine *)

Module JS.

Local Open Scope Q_scope.

(** [Math.round]: nearest integer, ties towards positive infinity. *)
Definition Math_round (x : Q) : Z := Qfloor (x + (1 # 2)).

Definition Qlt_bool (x y : Q) : bool := negb (Qle_bool y x).

(** [arr.reduce((a, b) => a + b)] without an initial value: a
    [TypeError] ([None]) on the empty array. *)
Definition reduce_add (arr : list Q) : option Q :=
  match arr with
  | [] => None
  | x :: rest => Some (fold_left Qplus rest x)
  end.

(** [Math.max(...arr)] and [Math.min(...arr)] on a non-empty array. *)
Definition Math_max (arr : list Q) : option Q :=
  match arr with
  | [] => None
  | x :: rest => Some (fold_left Qmax rest x)
  end.

Definition Math_min (arr : list Q) : option Q :=
  match arr with
  | [] => None
  | x :: rest => Some (fold_left Qmin rest x)
  end.

(** [arr.length] as a number. *)
Definition len {A} (arr : list A) : Q := inject_Z (Z.of_nat (length arr)).

(** [arr.slice(start, stop)], negative indices counting from the end. *)
Definition slice {A} (start stop : Z) (arr : list A) : list A :=
  let n := Z.of_nat (length arr) in
  let k := if (start <? 0)%Z then Z.max (n + start) 0 else Z.min start n in
  let final := if (stop <? 0)%Z then Z.max (n + stop) 0 else Z.min stop n in
  firstn (Z.to_nat (final - k)) (skipn (Z.to_nat k) arr).

(** [arr.sort((a, b) => a - b)]: the stable ascending sort. *)
Fixpoint insert (x : Q) (arr : list Q) : list Q :=
  match arr with
  | [] => [x]
  | y :: rest => if Qle_bool x y then x :: y :: rest else y :: insert x rest
  end.

Definition sort (arr : list Q) : list Q := fold_right insert [] arr.

(** The exact sum and mean of a list, for stating results. *)
Definition total (arr : list Q) : Q := fold_right Qplus 0 arr.

Definition mean (arr : list Q) : Q := total arr / len arr.

End JS.

(* ------------------------------------------------------------------ *)
(** ** Data model *)

Record Metrics := mkMetrics {
  download : Z;
  upload : Z;
  ping : Z;
  jitter : Z;
  signalStrength : Z
}.

Module SpeedTestResult.
Record t := mk {
  id : Z;
  date : string;
  download : Z;
  upload : Z;
  ping : Z;
  isp : string
}.
End SpeedTestResult.

Inductive LogType := error | success | info.

Module LogEntry.
Record t := mk {
  time : string;
  type : LogType;
  message : string
}.
End LogEntry.

(** The component state the engine owns. *)
Record State := mkState {
  testing : bool;
  progress : Q;
  metrics : Metrics;
  history : list SpeedTestResult.t;
  logs : list LogEntry.t
}.

(** [useState] initial values. *)
Definition initialState : State :=
  {| testing := false; progress := 0%Q;
     metrics := mkMetrics 0 0 0 0 0; history := []; logs := [] |}.

(* ------------------------------------------------------------------ *)
(** ** Result History *)

Module History.

(** [saveResult]: [history] and [networkInfo.isp] are the values the
    closure captured; [now] and [today] are [Date.now()] and
    [new Date().toLocaleString()]. *)
Definition newEntry (isp : string) (now : Z) (today : string)
           (newMetrics : Metrics) : SpeedTestResult.t :=
  {| SpeedTestResult.id := now;
     SpeedTestResult.date := today;
     SpeedTestResult.download := download newMetrics;
     SpeedTestResult.upload := upload newMetrics;
     SpeedTestResult.ping := ping newMetrics;
     SpeedTestResult.isp := isp |}.

Definition saveResult (history : list SpeedTestResult.t) (isp : string)
           (now : Z) (today : string) (newMetrics : Metrics)
  : list SpeedTestResult.t :=
  JS.slice 0 10 (newEntry isp now today newMetrics :: history).

Definition storageKey : string := "netdash_history".

(** [localStorage]: string keys to string values. *)
Definition Storage := string -> option string.

Definition setItem (key value : string) (ls : Storage) : Storage :=
  fun k => if String.eqb k key then Some value else ls k.

Section Codec.

(** [JSON.parse] at the declared type [SpeedTestResult[]]; [None] is
    a [SyntaxError].  [JSON.stringify] writes the array. *)
Variable JSON_parse : string -> option (list SpeedTestResult.t).
Variable JSON_stringify : list SpeedTestResult.t -> string.

Inductive Loaded := Returned (st : State) | SyntaxError.

(** [loadHistory]: [if (saved) setHistory(JSON.parse(saved))]; the
    absent key ([null]) and the empty string are falsy. *)
Definition loadHistory (ls : Storage) (st : State) : Loaded :=
  match ls storageKey with
  | None => Returned st
  | Some saved =>
      if String.eqb saved EmptyString then Returned st
      else match JSON_parse saved with
           | Some arr =>
               Returned {| testing := testing st; progress := progress st;
                           metrics := metrics st; history := arr;
                           logs := logs st |}
           | None => SyntaxError
           end
  end.

(** The storage write of [saveResult]. *)
Definition persist (updated : list SpeedTestResult.t) (ls : Storage)
  : Storage :=
  setItem storageKey (JSON_stringify updated) ls.

End Codec.

End History.

(* ------------------------------------------------------------------ *)
(** ** QoS classifier *)

Module QoS.

Record item := mk { name : string; pass : bool }.

Definition getQoS (metrics : Metrics) : list item :=
  let s := download metrics in
  let p := ping metrics in
  [ {| name := "4K Streaming"; pass := 25 <? s |};
    {| name := "Online Gaming"; pass := (p <? 50) && (0 <? p) |};
    {| name := "Video Calls"; pass := (10 <? s) && (2 <? upload metrics) |};
    {| name := "Large Files"; pass := 50 <? s |} ].

End QoS.

(* ------------------------------------------------------------------ *)
(** ** The environment of one run *)

(** One awaited network operation: a latency fetch, or a whole
    [Promise.all] batch.  [elapsed] is the difference of the two
    [performance.now()] readings around the await, in milliseconds. *)
Inductive Probe := Rejected | Resolved (elapsed : Q).

Module Connection.
(** [navigator.connection], of which the engine reads [rtt] (v3.5.0)
    and [type] (v3.0.0); either may be [undefined]. *)
Record t := mk {
  rtt : option Q;
  type : option string
}.
End Connection.

Record World := mkWorld {
  latencyProbes : list Probe;   (* outcomes of the favicon fetches, in order *)
  batches : list Probe;         (* outcomes of the download batches, in order *)
  rampTicks : nat;              (* interval firings before the last timer *)
  connection : option Connection.t;
  isp : string;                 (* networkInfo.isp *)
  startTime : string;           (* toLocaleTimeString() at the first log *)
  endTime : string;             (* toLocaleTimeString() at the last log *)
  endDate : string;             (* toLocaleString() in saveResult *)
  endStamp : Z                  (* Date.now() in saveResult *)
}.

(* ------------------------------------------------------------------ *)
(** ** The run operation *)

Module Engine.

Import JS.
Local Open Scope Q_scope.

(** The state setters a run calls, in program order. *)
Inductive Action :=
| setTesting (b : bool)
| setProgress (p : Q)
| stepProgress (cap : Q)     (* setProgress(prev => Math.min(prev + 1, cap)) *)
| setMetrics (update : Metrics -> Metrics)
| setHistory (updated : list SpeedTestResult.t)
| storeHistory (updated : list SpeedTestResult.t) (* localStorage.setItem *)
| addLog (type : LogType) (time message : string).

Definition apply (a : Action) (st : State) : State :=
  match a with
  | setTesting b =>
      mkState b (progress st) (metrics st) (history st) (logs st)
  | setProgress p =>
      mkState (testing st) p (metrics st) (history st) (logs st)
  | stepProgress cap =>
      mkState (testing st) (Qmin (progress st + 1) cap) (metrics st)
              (history st) (logs st)
  | setMetrics update =>
      mkState (testing st) (progress st) (update (metrics st))
              (history st) (logs st)
  | setHistory updated =>
      mkState (testing st) (progress st) (metrics st) updated (logs st)
  | storeHistory _ => st
  | addLog type time message =>
      mkState (testing st) (progress st) (metrics st) (history st)
              (slice 0 50 (LogEntry.mk time type message :: logs st))
  end.

Definition exec (acts : list Action) (st : State) : State :=
  fold_left (fun s a => apply a s) acts st.

(** The successive values of [progress] while [acts] run. *)
Fixpoint progressTrace (acts : list Action) (st : State) : list Q :=
  match acts with
  | [] => []
  | a :: rest => progress (apply a st) :: progressTrace rest (apply a st)
  end.

(** Object-spread updates of [Metrics]. *)
Definition clearMeasured (prev : Metrics) : Metrics :=
  mkMetrics 0 0 0 0 (signalStrength prev).
Definition withLatency (avgPing jitter : Z) (prev : Metrics) : Metrics :=
  mkMetrics (download prev) (upload prev) avgPing jitter (signalStrength prev).
Definition withDownload (d : Z) (prev : Metrics) : Metrics :=
  mkMetrics d (upload prev) (ping prev) (jitter prev) (signalStrength prev).
Definition withUpload (u : Z) (prev : Metrics) : Metrics :=
  mkMetrics (download prev) u (ping prev) (jitter prev) (signalStrength prev).
Definition withAll (finalResults : Metrics) (prev : Metrics) : Metrics :=
  finalResults.

(** How a phase of the run ends. *)
Inductive Phase (A : Type) :=
| Done (a : A)      (* ran to its end *)
| Throws            (* an await rejected, or a TypeError *)
| Blocks.           (* an await has not completed *)
Arguments Done {A} a.
Arguments Throws {A}.
Arguments Blocks {A}.

(** *** 1. Latency *)

(** [for (let i = 0; i < 10; i++)], with [remaining = 10 - i]. *)
Fixpoint latencyLoop (remaining : nat) (i : Z) (script : list Probe)
         (pings : list Q) : list Action * Phase (list Q) :=
  match remaining with
  | O => ([], Done pings)
  | S remaining' =>
      match script with
      | [] => ([], Blocks)
      | Rejected :: _ => ([], Throws)
      | Resolved elapsed :: script' =>
          let (acts, r) :=
            latencyLoop remaining' (i + 1) script' (pings ++ [elapsed]) in
          (setProgress (inject_Z (5 + i)) :: acts, r)
      end
  end.

(** [avgPing] and [jitter] as the run computes them. *)
Definition latencyStats (pings : list Q) : option (Z * Z) :=
  match reduce_add pings, Math_max pings, Math_min pings with
  | Some sum, Some hi, Some lo =>
      Some (Math_round (sum / len pings), Math_round (hi - lo))
  | _, _, _ => None
  end.

(** *** 2. Download *)

Definition fileSizeBits : Q := 5242880 * 8.
Definition streams : Q := 6.
Definition durationLimit : Q := 6000.

Definition speedOfBatch (elapsed : Q) : Q :=
  let durationSec := elapsed / 1000 in
  let batchBits := fileSizeBits * streams in
  (batchBits / durationSec) / 1024 / 1024.

Definition average (samples : list Q) : option Z :=
  match reduce_add samples with
  | Some sum => Some (Math_round (sum / len samples))
  | None => None
  end.

(** [while ((performance.now() - testStart) < durationLimit)]; the
    clock advances across awaits only, so [elapsedTime] is the sum of
    the batch durations so far. *)
Fixpoint downloadLoop (script : list Probe) (elapsedTime : Q)
         (samples : list Q) : list Action * Phase (list Q) :=
  if Qlt_bool elapsedTime durationLimit then
    match script with
    | [] => ([], Blocks)
    | Rejected :: _ => ([], Throws)
    | Resolved elapsed :: script' =>
        let samples' := samples ++ [speedOfBatch elapsed] in
        match average samples' with
        | None => ([], Throws)
        | Some currentAvg =>
            let elapsedTime' := elapsedTime + elapsed in
            let progressPct :=
              Qmin (20 + (elapsedTime' / durationLimit) * 60) 80 in
            let (acts, r) := downloadLoop script' elapsedTime' samples' in
            (setMetrics (withDownload currentAvg)
               :: setProgress progressPct :: acts, r)
        end
    end
  else ([], Done samples).

(** The final aggregation over the collected samples. *)
Definition finalSpeed (samples : list Q) : option Z :=
  let sorted := sort samples in
  if (2 <? Z.of_nat (length sorted))%Z then
    let validSamples := slice 1 (-1) sorted in
    average validSamples
  else
    average sorted.

(** *** 3. Upload *)

(** [(connection?.rtt < 15) ? 0.8 : 0.2] *)
Definition uploadRatio (connection : option Connection.t) : Q :=
  match connection with
  | Some c =>
      match Connection.rtt c with
      | Some rtt => if Qlt_bool rtt 15 then 0.8 else 0.2
      | None => 0.2
      end
  | None => 0.2
  end.

Definition simulatedUpload (finalSpeedMbps : Z)
           (connection : option Connection.t) : Z :=
  Math_round (inject_Z finalSpeedMbps * uploadRatio connection).

(** The display ramp: the value shown at each firing of the interval,
    up to and including the firing that clears it.  [ticks] bounds the
    firings the scheduler delivers. *)
Fixpoint ramp (ticks : nat) (current step : Q) (target : Z) : list Z :=
  match ticks with
  | O => []
  | S ticks' =>
      let current' := current + step in
      if Qle_bool (inject_Z target) current' then [target]
      else Math_round current' :: ramp ticks' current' step target
  end.

Definition upRamp (ticks : nat) (target : Z) : list Action :=
  flat_map (fun shown => [setMetrics (withUpload shown); stepProgress 100])
           (ramp ticks 0 (inject_Z target / 20) target).

Definition completeMessage (finalSpeedMbps : Z) : string :=
  ("Test Complete: " ++ NilZero.string_of_int (Z.to_int finalSpeedMbps)
     ++ " Mbps")%string.

(** The two timers started after the download phase. *)
Definition uploadPhase (w : World) (captured : list SpeedTestResult.t)
           (finalSpeedMbps avgPing jitter : Z) : list Action :=
  let up := simulatedUpload finalSpeedMbps (connection w) in
  let finalResults :=
    mkMetrics finalSpeedMbps up avgPing jitter (Z.max 0 (100 - avgPing)) in
  let updated :=
    History.saveResult captured (isp w) (endStamp w) (endDate w)
                       finalResults in
  upRamp (rampTicks w) up
    ++ [ setTesting false; setProgress 100; setMetrics (withAll finalResults);
         setHistory updated; storeHistory updated;
         addLog success (endTime w) (completeMessage finalSpeedMbps) ].

(** *** The whole run *)

Inductive Outcome :=
| Ignored      (* returned at the guard *)
| Completed    (* the final timer has run *)
| Caught       (* the catch block has run *)
| Raised       (* the promise of the run rejected *)
| Awaiting.    (* suspended at an await that has not completed *)

Definition failureMessage : string :=
  "Speed test failed (CORS/Network Error)".

Definition catchBlock (w : World) : list Action :=
  [ addLog error (endTime w) failureMessage; setTesting false ].

Definition prologue (w : World) : list Action :=
  [ setTesting true; setProgress 0; setMetrics clearMeasured;
    addLog info (startTime w) "Starting Precision Diagnostics..." ].

(** The body of [try]. *)
Definition tryBlock (w : World) (captured : list SpeedTestResult.t)
           (avgPing jitter : Z) : list Action * Outcome :=
  match downloadLoop (batches w) 0 [] with
  | (acts, Blocks) => (acts, Awaiting)
  | (acts, Throws) => (acts ++ catchBlock w, Caught)
  | (acts, Done samples) =>
      match finalSpeed samples with
      | None => (acts ++ catchBlock w, Caught)
      | Some finalSpeedMbps =>
          (acts ++ setMetrics (withDownload finalSpeedMbps)
                :: uploadPhase w captured finalSpeedMbps avgPing jitter,
           Completed)
      end
  end.

Definition runSpeedTest (w : World) (st : State) : list Action * Outcome :=
  if testing st then ([], Ignored)
  else
    match latencyLoop 10 0 (latencyProbes w) [] with
    | (acts, Blocks) => (prologue w ++ acts, Awaiting)
    | (acts, Throws) => (prologue w ++ acts, Raised)
    | (acts, Done pings) =>
        match latencyStats pings with
        | None => (prologue w ++ acts, Raised)
        | Some (avgPing, jitter) =>
            let (rest, outcome) := tryBlock w (history st) avgPing jitter in
            (prologue w ++ acts ++ setMetrics (withLatency avgPing jitter)
                      :: rest, outcome)
        end
    end.

(** The state a run leaves behind. *)
Definition after (w : World) (st : State) : State :=
  exec (fst (runSpeedTest w st)) st.

Definition outcome (w : World) (st : State) : Outcome :=
  snd (runSpeedTest w st).

(** What the actions do to [localStorage]. *)
Definition store (JSON_stringify : list SpeedTestResult.t -> string)
           (a : Action) (ls : History.Storage) : History.Storage :=
  match a with
  | storeHistory updated => History.persist JSON_stringify updated ls
  | _ => ls
  end.

Definition execStore (JSON_stringify : list SpeedTestResult.t -> string)
           (acts : list Action) (ls : History.Storage) : History.Storage :=
  fold_left (fun s a => store JSON_stringify a s) acts ls.

End Engine.

(* ------------------------------------------------------------------ *)
(** ** Release v3.0.0

    The earlier release has the same shape: five latency probes outside
    [try], one download inside it, a display ramp on the download figure,
    and a single timer that publishes the result. *)

Module V30.

Import JS Engine.
Local Open Scope Q_scope.

(** [for (let i = 0; i < 5; i++)], with [setProgress(10 + (i*2))]. *)
Fixpoint latencyLoop (remaining : nat) (i : Z) (script : list Probe)
         (pings : list Q) : list Action * Phase (list Q) :=
  match remaining with
  | O => ([], Done pings)
  | S remaining' =>
      match script with
      | [] => ([], Blocks)
      | Rejected :: _ => ([], Throws)
      | Resolved elapsed :: script' =>
          let (acts, r) :=
            latencyLoop remaining' (i + 1) script' (pings ++ [elapsed]) in
          (setProgress (inject_Z (10 + i * 2)) :: acts, r)
      end
  end.

Definition downloadSize : Q := 5000000.

Definition speedOfFetch (elapsed : Q) : Z :=
  let durationSeconds := elapsed / 1000 in
  let bitsLoaded := downloadSize * 8 in
  let speedBps := bitsLoaded / durationSeconds in
  Math_round (speedBps / 1024 / 1024).

(** [connection?.type === 'cellular' ? 0.1 : 0.3] *)
Definition uploadRatio (connection : option Connection.t) : Q :=
  match connection with
  | Some c =>
      match Connection.type c with
      | Some t => if String.eqb t "cellular" then 0.1 else 0.3
      | None => 0.3
      end
  | None => 0.3
  end.

Definition simulatedUpload (speedMbps : Z)
           (connection : option Connection.t) : Z :=
  Math_round (inject_Z speedMbps * uploadRatio connection).

(** The interval body is that of v3.5.0, on the download figure and with
    progress capped at 60. *)
Definition rampActions (shown : list Z) : list Action :=
  flat_map (fun v => [setMetrics (withDownload v); stepProgress 60]) shown.

Definition withTransfer (up down : Z) (prev : Metrics) : Metrics :=
  mkMetrics down up (ping prev) (jitter prev) (signalStrength prev).

(** The callback of the 1500 ms timer. *)
Definition timeoutBlock (w : World) (captured : list SpeedTestResult.t)
           (speedMbps avgPing jitter : Z) : list Action :=
  let up := simulatedUpload speedMbps (connection w) in
  let finalResults :=
    mkMetrics speedMbps up avgPing jitter (Z.max 0 (100 - avgPing)) in
  let updated :=
    History.saveResult captured (isp w) (endStamp w) (endDate w)
                       finalResults in
  [ setMetrics (withTransfer up speedMbps); setProgress 100;
    setTesting false; setMetrics (withAll finalResults);
    setHistory updated; storeHistory updated;
    addLog success (endTime w) (completeMessage speedMbps) ].

Definition failureMessage : string := "Speed test failed (Network Error)".

Definition catchBlock (w : World) : list Action :=
  [ addLog error (endTime w) failureMessage; setTesting false ].

Definition prologue (w : World) : list Action :=
  [ setTesting true; setProgress 0;
    addLog info (startTime w) "Starting Diagnostics..." ].

(** The body of [try].  The timer does not clear the interval: of the
    firings the ramp needs, at most twenty, [rampTicks w] come before the
    timer and the others after it. *)
Definition tryBlock (w : World) (captured : list SpeedTestResult.t)
           (avgPing jitter : Z) : list Action * Outcome :=
  match batches w with
  | [] => ([], Awaiting)
  | Rejected :: _ => (catchBlock w, Caught)
  | Resolved elapsed :: _ =>
      let speedMbps := speedOfFetch elapsed in
      let shown := ramp 20 0 (inject_Z speedMbps / 20) speedMbps in
      (rampActions (firstn (rampTicks w) shown)
         ++ timeoutBlock w captured speedMbps avgPing jitter
         ++ rampActions (skipn (rampTicks w) shown),
       Completed)
  end.

Definition runSpeedTest (w : World) (st : State) : list Action * Outcome :=
  if testing st then ([], Ignored)
  else
    match latencyLoop 5 0 (latencyProbes w) [] with
    | (acts, Blocks) => (prologue w ++ acts, Awaiting)
    | (acts, Throws) => (prologue w ++ acts, Raised)
    | (acts, Done pings) =>
        match latencyStats pings with
        | None => (prologue w ++ acts, Raised)
        | Some (avgPing, jitter) =>
            let (rest, outcome) := tryBlock w (history st) avgPing jitter in
            (prologue w ++ acts ++ setMetrics (withLatency avgPing jitter)
                      :: rest, outcome)
        end
    end.

Definition after (w : World) (st : State) : State :=
  exec (fst (runSpeedTest w st)) st.

Definition outcome (w : World) (st : State) : Outcome :=
  snd (runSpeedTest w st).

End V30.

(* ------------------------------------------------------------------ *)
(** ** Vocabulary of the specification *)

Local Open Scope Q_scope.

(** Newest-first by creation stamp. *)
Definition newestFirst (h : list SpeedTestResult.t) : Prop :=
  StronglySorted
    (fun a b => (SpeedTestResult.id b <= SpeedTestResult.id a)%Z) h.

(** The ascending-sorted samples without the single lowest and the single
    highest one. *)
Definition trimmed (samples : list Q) : list Q :=
  removelast (tl (JS.sort samples)).

(** The final download figure in the words of the specification, before
    any rounding: the trimmed mean from three samples on, the plain mean
    below. *)
Definition specFinalDownload (samples : list Q) : Q :=
  if (3 <=? length samples)%nat then JS.mean (trimmed samples)
  else JS.mean samples.

(** The display ramp in the words of the specification: [k] steps of
    [target / 20]. *)
Definition accumulated (target : Z) (k : nat) : Q :=
  inject_Z (Z.of_nat k) * (inject_Z target / 20).

(** The first tick at which the accumulated value reaches or passes the
    target: the twentieth for a positive target, the first otherwise. *)
Definition ticksToTarget (target : Z) : nat :=
  if (0 <? target)%Z then 20 else 1.

(** What the ramp shows at tick [k] before it reaches the target. *)
Definition rampShown (target : Z) (k : nat) : Z :=
  JS.Math_round (accumulated target k).

(** A trace of progress values that never steps down, starting at [from]. *)
Fixpoint nonDecreasing (from : Q) (trace : list Q) : Prop :=
  match trace with
  | [] => True
  | p :: rest => from <= p /\ nonDecreasing p rest
  end.

(** A phase climbs when its trace never steps down from the progress it
    starts at. *)
Definition climbs (acts : list Engine.Action) (st : State) : Prop :=
  nonDecreasing (progress st) (Engine.progressTrace acts st).

(** The elapsed-time source is monotonic: no batch takes negative time. *)
Definition clockMonotone (script : list Probe) : Prop :=
  Forall (fun b => match b with
                   | Resolved elapsed => 0 <= elapsed
                   | Rejected => True
                   end) script.

(* ------------------------------------------------------------------ *)
(** ** Sample runs *)

Definition fiveProbes : list Q := [20; 22; 21; 19; 23].

Definition tenProbes : list Q := fiveProbes ++ fiveProbes.

(** Ten probes resolve, three batches of 2 s, 2.5 s and 1.5 s fill the
    budget, and the connection reports a 10 ms round trip. *)
Definition steadyWorld : World :=
  {| latencyProbes := map Resolved tenProbes;
     batches := [Resolved 2000; Resolved 2500; Resolved 1500];
     rampTicks := 24;
     connection := Some (Connection.mk (Some 10) (Some "wifi"%string));
     isp := "ExampleISP";
     startTime := "10:00:00";
     endTime := "10:00:10";
     endDate := "1/1/2024, 10:00:10";
     endStamp := 1704103210000 |}.

(** The very first latency probe rejects. *)
Definition firstProbeRejected : World :=
  {| latencyProbes := [Rejected];
     batches := [];
     rampTicks := 24;
     connection := None;
     isp := "ExampleISP";
     startTime := "10:00:00";
     endTime := "10:00:01";
     endDate := "1/1/2024, 10:00:01";
     endStamp := 1704103201000 |}.

(** Latency completes, the first batch takes 2 s, the second rejects. *)
Definition secondBatchRejected : World :=
  {| latencyProbes := map Resolved tenProbes;
     batches := [Resolved 2000; Rejected];
     rampTicks := 24;
     connection := None;
     isp := "ExampleISP";
     startTime := "10:00:00";
     endTime := "10:00:03";
     endDate := "1/1/2024, 10:00:03";
     endStamp := 1704103203000 |}.

(** No connection hint; one batch of 20 s, that is 12 Mbps. *)
Definition slowLink (rtts : list Q) : World :=
  {| latencyProbes := map Resolved rtts;
     batches := [Resolved 20000];
     rampTicks := 24;
     connection := None;
     isp := "ExampleISP";
     startTime := "10:00:00";
     endTime := "10:00:23";
     endDate := "1/1/2024, 10:00:23";
     endStamp := 1704103223000 |}.

(** A v3.0.0 run: five probes, a download of 2 s, thirty ramp firings
    before the timer. *)
Definition steadyWorldV30 : World :=
  {| latencyProbes := map Resolved fiveProbes;
     batches := [Resolved 2000];
     rampTicks := 30;
     connection := None;
     isp := "ExampleISP";
     startTime := "10:00:00";
     endTime := "10:00:04";
     endDate := "1/1/2024, 10:00:04";
     endStamp := 1704103204000 |}.

(** Round trips that are not whole milliseconds. *)
Definition fractionalProbes : list Q :=
  repeat 20.3 5 ++ repeat 20.4 5.

Definition busyState : State :=
  {| testing := true; progress := 42; metrics := mkMetrics 80 16 21 4 79;
     history := []; logs := [] |}.

(** A stored history of eleven entries, and a decoder that knows its text. *)
Definition storedEntry (n : Z) : SpeedTestResult.t :=
  SpeedTestResult.mk n "1/1/2024" 50 10 20 "ExampleISP".

Definition elevenEntries : list SpeedTestResult.t :=
  map storedEntry [3; 11; 10; 9; 8; 7; 6; 5; 4; 2; 1]%Z.

Definition storedText : string := "[eleven stored results]".

Definition decodeStored (text : string) : option (list SpeedTestResult.t) :=
  if String.eqb text storedText then Some elevenEntries else None.

Definition storedHistory : History.Storage :=
  History.setItem History.storageKey storedText (fun _ => None).


(* ------------------------------------------------------------------ *)
(** ** The rest of the component

    The functions around the run operation: the report export, the
    traffic graph and the ISP lookup. *)

(** A sequence of [saveResult] calls, each on the history the previous one
    left: the arguments of a call are the ISP, the stamp, the date and the
    metrics. *)
Definition saveAll (calls : list (string * Z * string * Metrics))
           (prior : list SpeedTestResult.t) : list SpeedTestResult.t :=
  fold_left (fun h '(isp, now, today, m) =>
               History.saveResult h isp now today m) calls prior.

Definition entryOf (call : string * Z * string * Metrics)
  : SpeedTestResult.t :=
  let '(isp, now, today, m) := call in History.newEntry isp now today m.

(** Setters that leave the flag, the history and the log alone. *)
Definition quiet (a : Engine.Action) : Prop :=
  match a with
  | Engine.setProgress _ | Engine.stepProgress _ | Engine.setMetrics _ => True
  | _ => False
  end.

(** *** [exportReport] *)

Module Report.

Local Open Scope string_scope.

(** [arr.join(sep)] on an array of strings. *)
Fixpoint join (sep : string) (items : list string) : string :=
  match items with
  | [] => EmptyString
  | x :: rest =>
      match rest with
      | [] => x
      | _ :: _ => x ++ sep ++ join sep rest
      end
  end.

(** [String(n)] for an integer [n] below 10^21. *)
Definition numberToString (n : Z) : string :=
  NilZero.string_of_int (Z.to_int n).

Definition comma : Ascii.ascii := Ascii.ascii_of_nat 44.
Definition newline : Ascii.ascii := Ascii.ascii_of_nat 10.

Definition headers : list string :=
  ["Date"; "Download (Mbps)"; "Upload (Mbps)"; "Ping (ms)"; "ISP"].

(** [h => [h.date, h.download, h.upload, h.ping, h.isp]] *)
Definition cells (h : SpeedTestResult.t) : list string :=
  [ SpeedTestResult.date h;
    numberToString (SpeedTestResult.download h);
    numberToString (SpeedTestResult.upload h);
    numberToString (SpeedTestResult.ping h);
    SpeedTestResult.isp h ].

Definition line (fields : list string) : string :=
  join (String comma EmptyString) fields.

(** [[headers.join(','), ...rows.map(e => e.join(','))].join('\n')] *)
Definition table (history : list SpeedTestResult.t) : string :=
  join (String newline EmptyString)
       (line headers :: map line (map cells history)).

Definition prefix : string := "data:text/csv;charset=utf-8,".

Definition csvContent (history : list SpeedTestResult.t) : string :=
  prefix ++ table history.

(** The link the function creates and clicks: its [href] and its
    [download] attribute.  [encodeURI] is the platform's. *)
Definition exportReport (encodeURI : string -> string)
           (history : list SpeedTestResult.t) : string * string :=
  (encodeURI (csvContent history), "network_report.csv").

(** Reading a table back: the pieces of a text between the occurrences of
    a separator, and the number of those occurrences. *)
Fixpoint split (sep : Ascii.ascii) (text : string) : list string :=
  match text with
  | EmptyString => [EmptyString]
  | String c rest =>
      if Ascii.eqb c sep then EmptyString :: split sep rest
      else match split sep rest with
           | [] => [String c EmptyString]
           | piece :: pieces => String c piece :: pieces
           end
  end.

Fixpoint occurrences (sep : Ascii.ascii) (text : string) : nat :=
  match text with
  | EmptyString => 0
  | String c rest =>
      if Ascii.eqb c sep then S (occurrences sep rest)
      else occurrences sep rest
  end.

End Report.

(** *** [updateTrafficGraph] *)

Module Traffic.

Local Open Scope Q_scope.

Record point := mk { time : Z; sent : Q; received : Q }.

(** The results of the calls of [Math.random()], by the place of the call:
    the two idle base rates and the two noise terms. *)
Record draws := mkDraws {
  recvIdle : Q;
  sentIdle : Q;
  recvNoise : Q;
  sentNoise : Q
}.

(** [parseFloat(x.toFixed(2))]: the nearest multiple of 0.01, ties away
    from zero. *)
Definition toFixed2 (x : Q) : Q :=
  if JS.Qlt_bool x 0 then - (inject_Z (Qfloor (- x * 100 + (1 # 2))) / 100)
  else inject_Z (Qfloor (x * 100 + (1 # 2))) / 100.

(** [Array.from({ length: n }, (_, i) => ({ time: i, sent: 0, received: 0 }))];
    [n] is 40 in v3.5.0 and 20 in v3.0.0. *)
Definition initialWindow (n : nat) : list point :=
  map (fun i => mk (Z.of_nat i) 0 0) (seq 0 n).

(** The state updater of [updateTrafficGraph], with the [testing] flag and
    the metrics its closure holds; [None] is the [TypeError] of
    [prev[prev.length - 1].time] on an empty window.  The result is the
    new window and the live receive and transmit rates. *)
Definition updateTrafficGraph (testing : bool) (metrics : Metrics)
           (d : draws) (prev : list point) : option (list point * (Q * Q)) :=
  match nth_error prev (length prev - 1) with
  | None => None
  | Some final =>
      let newTime := (time final + 1)%Z in
      let baseRecv :=
        if testing then inject_Z (download metrics) * 0.125
        else recvIdle d * 0.5 in
      let baseSent :=
        if testing then inject_Z (upload metrics) * 0.125
        else sentIdle d * 0.1 in
      let newRx := toFixed2 (baseRecv + recvNoise d * 0.5) in
      let newTx := toFixed2 (baseSent + sentNoise d * 0.2) in
      let newData := mk newTime newTx newRx in
      Some (JS.slice 1 (Z.of_nat (length prev)) prev ++ [newData],
            (newRx, newTx))
  end.

(** Successive firings of the interval, each with what its closure sees. *)
Fixpoint run (firings : list (bool * Metrics * draws)) (window : list point)
  : option (list point) :=
  match firings with
  | [] => Some window
  | (testing, metrics, d) :: rest =>
      match updateTrafficGraph testing metrics d window with
      | None => None
      | Some (window', _) => run rest window'
      end
  end.

(** [Math.random()] returns a number in the interval from 0 to 1, 1
    excluded. *)
Definition inUnit (r : Q) : Prop := 0 <= r /\ r < 1.

Definition wellDrawn (d : draws) : Prop :=
  inUnit (recvIdle d) /\ inUnit (sentIdle d)
  /\ inUnit (recvNoise d) /\ inUnit (sentNoise d).

End Traffic.

(** *** Samples for the properties of these functions *)

Definition exportedEntry : SpeedTestResult.t :=
  SpeedTestResult.mk 1704103210000 "1/1/2024" 50 10 20 "ExampleISP".

(** An entry dated as [toLocaleString()] writes dates in the [en-US]
    locale. *)
Definition datedEntry : SpeedTestResult.t :=
  SpeedTestResult.mk 1704103204000 "1/1/2024, 10:00:04 AM" 50 10 20
                     "ExampleISP".

Definition threeCalls : list (string * Z * string * Metrics) :=
  [ ("ExampleISP"%string, 1%Z, "1/1/2024"%string, mkMetrics 50 10 20 4 80);
    ("ExampleISP"%string, 2%Z, "2/1/2024"%string, mkMetrics 60 12 18 3 82);
    ("ExampleISP"%string, 3%Z, "3/1/2024"%string, mkMetrics 70 14 16 2 84) ].

(** The v3.0.0 run of [steadyWorldV30] with a slow interval: ten ramp
    firings before the timer, the other ten after it. *)
Definition lateRampV30 : World :=
  {| latencyProbes := latencyProbes steadyWorldV30;
     batches := batches steadyWorldV30;
     rampTicks := 10;
     connection := connection steadyWorldV30;
     isp := isp steadyWorldV30;
     startTime := startTime steadyWorldV30;
     endTime := endTime steadyWorldV30;
     endDate := endDate steadyWorldV30;
     endStamp := endStamp steadyWorldV30 |}.

Definition halfDraws : Traffic.draws :=
  Traffic.mkDraws (1 # 2) (1 # 2) (1 # 2) (1 # 2).

(** A codec for the history a steady run leaves. *)
Definition steadyText : string := "[one stored result]".

Definition encodeSteady (h : list SpeedTestResult.t) : string := steadyText.

Definition decodeSteady (text : string) : option (list SpeedTestResult.t) :=
  if String.eqb text steadyText
  then Some (history (Engine.after steadyWorld initialState))
  else None.

(* ------------------------------------------------------------------ *)
(** * Properties *)

Import Engine.

(** ** Facts about the JavaScript primitives *)

Section SliceFacts.

Context {A : Type}.

Lemma slice_prefix (n : nat) (arr : list A) :
  JS.slice 0 (Z.of_nat n) arr = firstn n arr.
Proof.
  unfold JS.slice. cbn [Z.ltb Z.compare].
  destruct (Z.ltb_spec (Z.of_nat n) 0) as [Hneg|_]; [lia|].
  rewrite (Z.min_l 0) by lia. cbn [Z.to_nat skipn]. rewrite Z.sub_0_r.
  destruct (Nat.le_gt_cases n (length arr)) as [Hle|Hgt].
  - rewrite Z.min_l by lia. now rewrite Nat2Z.id.
  - rewrite Z.min_r by lia. rewrite Nat2Z.id.
    rewrite !firstn_all2; auto; lia.
Qed.

Lemma slice_inner (arr : list A) :
  JS.slice 1 (-1) arr = firstn (length arr - 2) (skipn 1 arr).
Proof.
  unfold JS.slice. cbn [Z.ltb Z.compare].
  destruct arr as [|x [|y rest]]; [reflexivity .. |].
  rewrite Z.min_l by (cbn [length]; lia).
  rewrite Z.max_l by (cbn [length]; lia).
  f_equal. cbn [length]. lia.
Qed.

Lemma In_firstn (n : nat) (x : A) (arr : list A) :
  In x (firstn n arr) -> In x arr.
Proof.
  intros Hin. rewrite <- (firstn_skipn n arr).
  apply in_or_app. now left.
Qed.

Lemma ends_split (arr : list A) :
  (2 <= length arr)%nat -> exists lo mid hi, arr = lo :: mid ++ [hi].
Proof.
  destruct arr as [|lo rest]; cbn [length]; [lia|]. intros Hlen.
  destruct (exists_last (l := rest)) as (mid & hi & ->).
  - destruct rest; cbn in Hlen; [lia|congruence].
  - now exists lo, mid, hi.
Qed.

Lemma last_cons_default (l : list A) (a d d' : A) :
  last (a :: l) d = last (a :: l) d'.
Proof.
  revert a. induction l as [|b l IH]; intros a; [reflexivity|].
  change (last (b :: l) d = last (b :: l) d'). apply IH.
Qed.

End SliceFacts.

(** [Math.round] *)

Lemma Math_round_comp (x y : Q) :
  x == y -> JS.Math_round x = JS.Math_round y.
Proof. intros E. unfold JS.Math_round. now rewrite E. Qed.

Lemma Math_round_mono (x y : Q) :
  x <= y -> (JS.Math_round x <= JS.Math_round y)%Z.
Proof. intros H. apply Qfloor_resp_le. lra. Qed.

Lemma Math_round_below (x : Q) (t : Z) :
  x < inject_Z t -> (JS.Math_round x <= t)%Z.
Proof.
  intros H. unfold JS.Math_round.
  assert (Hlt : (Qfloor (x + (1 # 2)) < t + 1)%Z).
  { rewrite Zlt_Qlt. eapply Qle_lt_trans; [apply Qfloor_le|].
    rewrite inject_Z_plus. change (inject_Z 1) with 1. lra. }
  lia.
Qed.

Lemma Math_round_Z (z : Z) : JS.Math_round (inject_Z z) = z.
Proof.
  apply Z.le_antisymm.
  - assert (H : (JS.Math_round (inject_Z z) <= z + 1 - 1)%Z); [|lia].
    apply Z.lt_le_pred. unfold JS.Math_round. rewrite Zlt_Qlt.
    eapply Qle_lt_trans; [apply Qfloor_le|].
    rewrite inject_Z_plus. change (inject_Z 1) with 1. lra.
  - unfold JS.Math_round. rewrite <- (Qfloor_Z z) at 1.
    apply Qfloor_resp_le. lra.
Qed.

(** The rounded figure is within half a unit of the exact one. *)
Lemma Math_round_near (x : Q) :
  x - (1 # 2) < inject_Z (JS.Math_round x)
  /\ inject_Z (JS.Math_round x) <= x + (1 # 2).
Proof.
  unfold JS.Math_round. split.
  - pose proof (Qlt_floor (x + (1 # 2))) as H.
    rewrite inject_Z_plus in H. change (inject_Z 1) with 1 in H. lra.
  - apply Qfloor_le.
Qed.

(** Sums and means *)

Lemma fold_left_Qplus (arr : list Q) (x : Q) :
  fold_left Qplus arr x == x + JS.total arr.
Proof.
  revert x. induction arr as [|y arr IH]; intros x; cbn.
  - ring.
  - rewrite IH. unfold JS.total. ring.
Qed.

Lemma len_cons {A} (x : A) (arr : list A) :
  JS.len (x :: arr) == JS.len arr + 1.
Proof.
  unfold JS.len. cbn [length]. rewrite Nat2Z.inj_succ, <- Z.add_1_r.
  now rewrite inject_Z_plus.
Qed.

Lemma len_pos {A} (arr : list A) : arr <> [] -> 0 < JS.len arr.
Proof.
  destruct arr as [|x arr]; [congruence|]. intros _.
  unfold JS.len. change 0 with (inject_Z 0). rewrite <- Zlt_Qlt.
  cbn [length]. lia.
Qed.

Lemma total_app (l1 l2 : list Q) :
  JS.total (l1 ++ l2) == JS.total l1 + JS.total l2.
Proof.
  unfold JS.total. induction l1 as [|x l1 IH]; cbn.
  - ring.
  - rewrite IH. ring.
Qed.

Lemma total_perm (l1 l2 : list Q) :
  Permutation l1 l2 -> JS.total l1 == JS.total l2.
Proof.
  unfold JS.total.
  induction 1 as [|x l1 l2 _ IH|x y l|l1 l2 l3 _ IH1 _ IH2]; cbn.
  - reflexivity.
  - now rewrite IH.
  - ring.
  - now rewrite IH1.
Qed.

Lemma mean_perm (l1 l2 : list Q) :
  Permutation l1 l2 -> JS.mean l1 == JS.mean l2.
Proof.
  intros P. unfold JS.mean, JS.len.
  rewrite (total_perm _ _ P), (Permutation_length P). reflexivity.
Qed.

Lemma total_bounds (lo hi : Q) (arr : list Q) :
  Forall (fun x => lo <= x /\ x <= hi) arr ->
  lo * JS.len arr <= JS.total arr /\ JS.total arr <= hi * JS.len arr.
Proof.
  induction 1 as [|x arr [Hlo Hhi] _ [IHlo IHhi]].
  - unfold JS.len, JS.total. cbn [length fold_right Z.of_nat].
    change (inject_Z 0) with 0. lra.
  - rewrite len_cons. cbn [JS.total fold_right]. fold (JS.total arr).
    split; nra.
Qed.

Lemma mean_bounds (lo hi : Q) (arr : list Q) :
  arr <> [] ->
  Forall (fun x => lo <= x /\ x <= hi) arr ->
  lo <= JS.mean arr /\ JS.mean arr <= hi.
Proof.
  intros Hne Hall. destruct (total_bounds lo hi arr Hall) as [Hlo Hhi].
  pose proof (len_pos arr Hne) as Hpos. unfold JS.mean. split.
  - now apply Qle_shift_div_l.
  - now apply Qle_shift_div_r.
Qed.

(** [reduce] followed by the division and [Math.round] is the rounded mean. *)
Lemma average_mean (arr : list Q) :
  arr <> [] -> average arr = Some (JS.Math_round (JS.mean arr)).
Proof.
  destruct arr as [|x arr]; [congruence|]. intros _.
  unfold average, JS.reduce_add, JS.mean. f_equal.
  apply Math_round_comp. rewrite fold_left_Qplus. reflexivity.
Qed.

(** Sorting *)

Lemma insert_perm (x : Q) (arr : list Q) :
  Permutation (x :: arr) (JS.insert x arr).
Proof.
  induction arr as [|y arr IH]; cbn; [reflexivity|].
  destruct (Qle_bool x y); [reflexivity|].
  rewrite perm_swap. now constructor.
Qed.

Lemma sort_perm (arr : list Q) : Permutation arr (JS.sort arr).
Proof.
  induction arr as [|x arr IH]; cbn; [constructor|].
  rewrite <- insert_perm. now constructor.
Qed.

Lemma insert_sorted (x : Q) (arr : list Q) :
  StronglySorted Qle arr -> StronglySorted Qle (JS.insert x arr).
Proof.
  induction 1 as [|y arr Hs IH Hall]; cbn.
  - repeat constructor.
  - destruct (Qle_bool x y) eqn:Hxy.
    + apply Qle_bool_iff in Hxy. constructor; [now constructor|].
      constructor; [exact Hxy|].
      rewrite Forall_forall in *. intros z Hz.
      apply Qle_trans with y; auto.
    + assert (Hyx : y <= x).
      { destruct (Qlt_le_dec y x) as [Hlt|Hle]; [now apply Qlt_le_weak|].
        apply Qle_bool_iff in Hle. congruence. }
      constructor; [exact IH|].
      rewrite Forall_forall in *. intros z Hz.
      apply (Permutation_in _ (Permutation_sym (insert_perm x arr))) in Hz.
      destruct Hz as [<-|Hz]; auto.
Qed.

Lemma sort_sorted (arr : list Q) : StronglySorted Qle (JS.sort arr).
Proof.
  induction arr as [|x arr IH]; cbn; [constructor|].
  now apply insert_sorted.
Qed.

Lemma sort_length (arr : list Q) : length (JS.sort arr) = length arr.
Proof. symmetry. apply Permutation_length, sort_perm. Qed.

Lemma sorted_last (mid : list Q) (hi : Q) :
  StronglySorted Qle (mid ++ [hi]) -> Forall (fun x => x <= hi) (mid ++ [hi]).
Proof.
  induction mid as [|x mid IH]; cbn; intros Hs.
  - constructor; [apply Qle_refl|constructor].
  - inversion Hs as [|? ? Hs' Hall]; subst. constructor; [|now apply IH].
    rewrite Forall_forall in Hall. apply Hall, in_or_app. right. now left.
Qed.

(** [Math.max] and [Math.min] *)

Lemma Qmax_cases (x y : Q) : Qmax x y = x \/ Qmax x y = y.
Proof. unfold Qmax, GenericMinMax.gmax. destruct (x ?= y); auto. Qed.

Lemma Qmin_cases (x y : Q) : Qmin x y = x \/ Qmin x y = y.
Proof. unfold Qmin, GenericMinMax.gmin. destruct (x ?= y); auto. Qed.

Lemma fold_Qmax_spec (arr : list Q) (x : Q) :
  In (fold_left Qmax arr x) (x :: arr)
  /\ Forall (fun y => y <= fold_left Qmax arr x) (x :: arr).
Proof.
  revert x. induction arr as [|y arr IH]; intros x; cbn [fold_left].
  - split; [now left|]. constructor; [apply Qle_refl|constructor].
  - destruct (IH (Qmax x y)) as [Hin Hall]. split.
    + destruct Hin as [Hin|Hin]; [|right; now right].
      destruct (Qmax_cases x y) as [E|E].
      * left. rewrite <- Hin. now symmetry.
      * right. left. rewrite <- Hin. now symmetry.
    + inversion Hall as [|? ? Hm Hrest]; subst.
      constructor; [|constructor; [|exact Hrest]].
      * eapply Qle_trans; [apply Q.le_max_l|exact Hm].
      * eapply Qle_trans; [apply Q.le_max_r|exact Hm].
Qed.

Lemma fold_Qmin_spec (arr : list Q) (x : Q) :
  In (fold_left Qmin arr x) (x :: arr)
  /\ Forall (fun y => fold_left Qmin arr x <= y) (x :: arr).
Proof.
  revert x. induction arr as [|y arr IH]; intros x; cbn [fold_left].
  - split; [now left|]. constructor; [apply Qle_refl|constructor].
  - destruct (IH (Qmin x y)) as [Hin Hall]. split.
    + destruct Hin as [Hin|Hin]; [|right; now right].
      destruct (Qmin_cases x y) as [E|E].
      * left. rewrite <- Hin. now symmetry.
      * right. left. rewrite <- Hin. now symmetry.
    + inversion Hall as [|? ? Hm Hrest]; subst.
      constructor; [|constructor; [|exact Hrest]].
      * eapply Qle_trans; [exact Hm|apply Q.le_min_l].
      * eapply Qle_trans; [exact Hm|apply Q.le_min_r].
Qed.

(* ------------------------------------------------------------------ *)
(** ** Result History *)

Lemma saveResult_cons
      (prior : list SpeedTestResult.t) (isp : string) (now : Z)
      (today : string) (m : Metrics) :
  History.saveResult prior isp now today m
  = History.newEntry isp now today m :: firstn 9 prior.
Proof.
  unfold History.saveResult.
  change 10%Z with (Z.of_nat 10). now rewrite slice_prefix.
Qed.

(** C6.  Inserting a completed result into any prior history puts the new
    entry at the front, keeps the most recent nine of the prior entries in
    their order, evicts the rest from the tail, and leaves at most ten
    entries. *)
Theorem saveResult_bounded_newest_first
        (prior : list SpeedTestResult.t) (isp : string) (now : Z)
        (today : string) (m : Metrics) :
  let entry := History.newEntry isp now today m in
  let updated := History.saveResult prior isp now today m in
  (length updated <= 10)%nat
  /\ length updated = Nat.min 10 (S (length prior))
  /\ updated = entry :: firstn 9 prior
  /\ entry :: prior = updated ++ skipn 9 prior.
Proof.
  intros entry updated. subst entry updated. rewrite saveResult_cons.
  repeat split.
  - cbn [length]. rewrite length_firstn. lia.
  - cbn [length]. rewrite length_firstn. lia.
  - cbn [app]. now rewrite firstn_skipn.
Qed.

Lemma newestFirst_firstn (n : nat) (h : list SpeedTestResult.t) :
  newestFirst h -> newestFirst (firstn n h).
Proof.
  unfold newestFirst. revert n.
  induction h as [|a h IH]; intros [|n] Hs; cbn [firstn]; try constructor.
  - apply IH. now inversion Hs.
  - inversion Hs as [|? ? _ Hall]; subst.
    rewrite Forall_forall in *. intros b Hb. apply Hall.
    now apply (In_firstn n).
Qed.

(** With a clock that does not run backwards, insertion keeps the
    history sorted by creation stamp, newest first. *)
Lemma saveResult_newestFirst
      (prior : list SpeedTestResult.t) (isp : string) (now : Z)
      (today : string) (m : Metrics) :
  newestFirst prior ->
  Forall (fun r => (SpeedTestResult.id r <= now)%Z) prior ->
  newestFirst (History.saveResult prior isp now today m).
Proof.
  intros Hs Hnow. rewrite saveResult_cons.
  constructor.
  - now apply newestFirst_firstn.
  - rewrite Forall_forall in *. intros b Hb. cbn.
    apply Hnow. now apply (In_firstn 9).
Qed.

Section LoadHistory.

Variable JSON_parse : string -> option (list SpeedTestResult.t).

(** [JSON.parse] rejects the empty text. *)
Hypothesis JSON_parse_empty : JSON_parse EmptyString = None.

(** C10.  When the stored text parses to an array, loading sets the
    history to exactly that array, whatever its length or order, and
    changes nothing else. *)
Theorem loadHistory_verbatim
        (ls : History.Storage) (st : State) (saved : string)
        (arr : list SpeedTestResult.t) :
  ls History.storageKey = Some saved ->
  JSON_parse saved = Some arr ->
  exists st',
    History.loadHistory JSON_parse ls st = History.Returned st'
    /\ history st' = arr
    /\ testing st' = testing st /\ progress st' = progress st
    /\ metrics st' = metrics st /\ logs st' = logs st.
Proof.
  intros Hget Hparse. unfold History.loadHistory. rewrite Hget.
  destruct (String.eqb saved EmptyString) eqn:Hempty.
  - apply String.eqb_eq in Hempty. subst saved. congruence.
  - rewrite Hparse. eexists. split; [reflexivity|]. cbn. tauto.
Qed.

End LoadHistory.

(** Eleven stored entries, not in stamp order, are loaded as they are. *)
Lemma loadHistory_witness :
  decodeStored EmptyString = None
  /\ storedHistory History.storageKey = Some storedText
  /\ decodeStored storedText = Some elevenEntries
  /\ length elevenEntries = 11%nat
  /\ exists st',
      History.loadHistory decodeStored storedHistory initialState
      = History.Returned st'
      /\ history st' = elevenEntries
      /\ testing st' = testing initialState
      /\ progress st' = progress initialState
      /\ metrics st' = metrics initialState
      /\ logs st' = logs initialState.
Proof.
  split; [reflexivity|]. split; [reflexivity|]. split; [reflexivity|].
  split; [reflexivity|].
  apply (loadHistory_verbatim decodeStored eq_refl storedHistory initialState
                              storedText elevenEntries); reflexivity.
Defined.

(* ------------------------------------------------------------------ *)
(** ** QoS classifier *)

(** C8.  The classifier returns, from the metrics alone, the four named
    verdicts in a fixed order, each passing exactly on its threshold. *)
Theorem getQoS_verdicts (m : Metrics) :
  exists streaming gaming calls files : bool,
    QoS.getQoS m =
      [ QoS.mk "4K Streaming" streaming; QoS.mk "Online Gaming" gaming;
        QoS.mk "Video Calls" calls; QoS.mk "Large Files" files ]
    /\ (streaming = true <-> 25 < download m)%Z
    /\ (gaming = true <-> 0 < ping m < 50)%Z
    /\ (calls = true <-> 10 < download m /\ 2 < upload m)%Z
    /\ (files = true <-> 50 < download m)%Z.
Proof.
  do 4 eexists. split; [reflexivity|].
  rewrite !andb_true_iff, !Z.ltb_lt. intuition lia.
Qed.

(* ------------------------------------------------------------------ *)
(** ** The guard of the run operation *)

(** C7.  Invoked while [testing] is set, the run returns at once: it
    calls no setter, so metrics, progress, history and log are as before. *)
Theorem runSpeedTest_noop_while_testing (w : World) (st : State) :
  testing st = true ->
  runSpeedTest w st = ([], Ignored) /\ after w st = st.
Proof.
  intros Hbusy. unfold after, runSpeedTest.
  rewrite Hbusy. split; reflexivity.
Qed.

Lemma runSpeedTest_noop_witness :
  testing busyState = true
  /\ runSpeedTest steadyWorld busyState = ([], Ignored)
  /\ after steadyWorld busyState = busyState.
Proof.
  split; [reflexivity|].
  apply (runSpeedTest_noop_while_testing steadyWorld busyState). reflexivity.
Defined.

(* ------------------------------------------------------------------ *)
(** ** Throughput: the final aggregation *)

(** From three samples on, the sorted list is the lowest sample, the
    trimmed ones, and the highest sample. *)
Lemma trimmed_spec (samples : list Q) :
  (3 <= length samples)%nat ->
  exists lo hi,
    JS.sort samples = lo :: trimmed samples ++ [hi]
    /\ In lo samples /\ In hi samples
    /\ Forall (fun x => lo <= x /\ x <= hi) samples
    /\ JS.total (trimmed samples) == JS.total samples - lo - hi
    /\ length (trimmed samples) = (length samples - 2)%nat.
Proof.
  intros Hlen. unfold trimmed.
  pose proof (sort_perm samples) as P.
  pose proof (sort_sorted samples) as S.
  pose proof (sort_length samples) as L.
  destruct (ends_split (JS.sort samples)) as (lo & mid & hi & E); [lia|].
  rewrite E in *. cbn [tl]. rewrite removelast_last.
  exists lo, hi. split; [reflexivity|].
  assert (Hall : Forall (fun x => lo <= x /\ x <= hi) (lo :: mid ++ [hi])).
  { inversion S as [|? ? S' Hlo]; subst.
    pose proof (sorted_last _ _ S') as Hhi.
    rewrite Forall_forall in *. intros x [<-|Hx].
    - split; [apply Qle_refl|]. destruct mid as [|y mid].
      + apply Hlo. now left.
      + apply Qle_trans with y; [apply Hlo; now left|apply Hhi; now left].
    - split; [now apply Hlo|now apply Hhi]. }
  repeat split.
  - apply (Permutation_in _ (Permutation_sym P)). now left.
  - apply (Permutation_in _ (Permutation_sym P)). right.
    apply in_or_app. right. now left.
  - rewrite Forall_forall in *. intros x Hx.
    apply Hall. now apply (Permutation_in _ P).
  - rewrite (total_perm _ _ P). cbn [JS.total fold_right].
    fold (JS.total (mid ++ [hi])). rewrite total_app.
    change (JS.total [hi]) with (hi + 0). ring.
  - cbn [length] in L. rewrite length_app in L. cbn [length] in L. lia.
Qed.

(** [slice(1, -1)] of the sorted samples is the trimmed list. *)
Lemma slice_sorted_trimmed (samples : list Q) :
  (3 <= length samples)%nat ->
  JS.slice 1 (-1) (JS.sort samples) = trimmed samples
  /\ trimmed samples <> [].
Proof.
  intros Hlen.
  destruct (trimmed_spec samples Hlen) as (lo & hi & E & _ & _ & _ & _ & L).
  split.
  - rewrite slice_inner, E. cbn [length skipn].
    rewrite length_app. cbn [length].
    replace (S (length (trimmed samples) + 1) - 2)%nat
      with (length (trimmed samples) + 0)%nat by lia.
    rewrite firstn_app_2. cbn [firstn]. apply app_nil_r.
  - intros Hnil. rewrite Hnil in L. cbn in L. lia.
Qed.



(** The two scenarios of the specification. *)
Example finalSpeed_three_samples :
  finalSpeed [10; 12; 100] = Some 12%Z
  /\ trimmed [10; 12; 100] = [12]
  /\ specFinalDownload [10; 12; 100] == 12.
Proof. repeat split. Qed.

Example finalSpeed_two_samples :
  finalSpeed [50; 70] = Some 60%Z /\ specFinalDownload [50; 70] == 60.
Proof. repeat split. Qed.


(* ------------------------------------------------------------------ *)
(** ** Latency: mean and jitter *)

Lemma latencyStats_spec (pings : list Q) :
  pings <> [] ->
  exists lo hi,
    JS.Math_min pings = Some lo /\ JS.Math_max pings = Some hi
    /\ In lo pings /\ In hi pings
    /\ Forall (fun x => lo <= x /\ x <= hi) pings
    /\ latencyStats pings
       = Some (JS.Math_round (JS.mean pings), JS.Math_round (hi - lo))
    /\ (0 <= JS.Math_round (hi - lo))%Z
    /\ lo <= JS.mean pings <= hi
    /\ (JS.Math_round lo <= JS.Math_round (JS.mean pings)
        <= JS.Math_round hi)%Z.
Proof.
  intros Hne. destruct pings as [|x rest]; [congruence|].
  destruct (fold_Qmin_spec rest x) as [Hlo_in Hlo].
  destruct (fold_Qmax_spec rest x) as [Hhi_in Hhi].
  set (lo := fold_left Qmin rest x) in *.
  set (hi := fold_left Qmax rest x) in *.
  assert (Hall : Forall (fun y => lo <= y /\ y <= hi) (x :: rest)).
  { rewrite Forall_forall in *. intros y Hy. split; auto. }
  destruct (mean_bounds lo hi (x :: rest) Hne Hall) as [Hm1 Hm2].
  exists lo, hi. repeat split; auto.
  - unfold latencyStats, JS.reduce_add, JS.Math_max, JS.Math_min.
    fold lo hi. f_equal. f_equal.
    apply Math_round_comp. unfold JS.mean.
    rewrite fold_left_Qplus. reflexivity.
  - rewrite <- (Math_round_Z 0). apply Math_round_mono.
    rewrite Forall_forall in Hall. destruct (Hall x (or_introl eq_refl)).
    change (inject_Z 0) with 0. lra.
  - now apply Math_round_mono.
  - now apply Math_round_mono.
Qed.

(** When the first [length rtts] probes resolve, the loop collects their
    round-trip times. *)
Lemma latencyLoop_resolved (rtts : list Q) :
  forall (i : Z) (rest : list Probe) (pings : list Q),
  exists acts,
    latencyLoop (length rtts) i (map Resolved rtts ++ rest) pings
    = (acts, Done (pings ++ rtts)).
Proof.
  induction rtts as [|x rtts IH]; intros i rest pings;
    cbn [length map app latencyLoop].
  - exists []. now rewrite app_nil_r.
  - destruct (IH (i + 1)%Z rest (pings ++ [x])) as [acts ->].
    eexists. now rewrite <- app_assoc.
Qed.

Lemma exec_app (a b : list Action) (st : State) :
  exec (a ++ b) st = exec b (exec a st).
Proof. apply fold_left_app. Qed.

Lemma exec_cons (a : Action) (rest : list Action) (st : State) :
  exec (a :: rest) st = exec rest (apply a st).
Proof. reflexivity. Qed.

(** Once the ten probes of a run have resolved, the run publishes the two
    rounded figures with a single [setMetrics]. *)
Lemma run_publishes_latency
      (w : World) (st : State) (rtts : list Q) (rest : list Probe)
      (avgPing jit : Z) :
  testing st = false ->
  latencyProbes w = map Resolved rtts ++ rest ->
  length rtts = 10%nat ->
  latencyStats rtts = Some (avgPing, jit) ->
  exists before more,
    fst (runSpeedTest w st)
    = before ++ setMetrics (withLatency avgPing jit) :: more
    /\ ping (metrics (exec (before ++ [setMetrics (withLatency avgPing jit)])
                           st)) = avgPing
    /\ jitter (metrics (exec (before ++ [setMetrics (withLatency avgPing jit)])
                             st)) = jit.
Proof.
  intros Hidle Hprobes Hlen Hstats.
  destruct (latencyLoop_resolved rtts 0 rest []) as [acts Hloop].
  rewrite Hlen in Hloop. cbn [app] in Hloop.
  unfold runSpeedTest. rewrite Hidle, Hprobes, Hloop, Hstats.
  destruct (tryBlock w (history st) _ _) as [more o].
  exists (prologue w ++ acts), more. cbn [fst].
  split; [now rewrite <- app_assoc|].
  rewrite exec_app. split; reflexivity.
Qed.



(** The scenario of the specification: five probes. *)
Example latencyStats_five_probes :
  latencyStats fiveProbes = Some (21, 4)%Z
  /\ JS.mean fiveProbes == 21
  /\ JS.Math_max fiveProbes = Some 23 /\ JS.Math_min fiveProbes = Some 19.
Proof. repeat split. Qed.


(* ------------------------------------------------------------------ *)
(** ** Display ramp *)

Lemma ramp_comp (ticks : nat) (c1 c2 step : Q) (target : Z) :
  c1 == c2 -> ramp ticks c1 step target = ramp ticks c2 step target.
Proof.
  revert c1 c2. induction ticks as [|ticks IH]; intros c1 c2 E;
    cbn [ramp]; [reflexivity|].
  assert (E' : c1 + step == c2 + step) by now rewrite E.
  rewrite (Qleb_comp _ _ (Qeq_refl (inject_Z target)) _ _ E').
  rewrite (Math_round_comp _ _ E'), (IH _ _ E'). reflexivity.
Qed.

(** No tick shows more than the target. *)
Lemma ramp_never_exceeds (ticks : nat) (current step : Q) (target : Z) :
  Forall (fun shown => (shown <= target)%Z) (ramp ticks current step target).
Proof.
  revert current. induction ticks as [|ticks IH]; intros current;
    cbn [ramp]; [constructor|].
  destruct (Qle_bool (inject_Z target) (current + step)) eqn:Hreach.
  - constructor; [lia|constructor].
  - constructor; [|apply IH].
    apply Math_round_below.
    destruct (Qlt_le_dec (current + step) (inject_Z target)) as [Hlt|Hle];
      auto.
    apply Qle_bool_iff in Hle. congruence.
Qed.

(** After [j] steps of a positive target the ramp takes [19 - j] more
    rounded steps and then snaps. *)
Lemma ramp_from (target : Z) :
  (0 < target)%Z ->
  forall (m j : nat) (current : Q) (ticks : nat),
    (j + m = 19)%nat ->
    current == accumulated target j ->
    (S m <= ticks)%nat ->
    ramp ticks current (inject_Z target / 20) target
    = map (rampShown target) (seq (S j) m) ++ [target].
Proof.
  intros Hpos. unfold accumulated.
  assert (Ht : 0 < inject_Z target).
  { change 0 with (inject_Z 0). now rewrite <- Zlt_Qlt. }
  induction m as [|m IH]; intros j current ticks Hj Hcur Hticks;
    (destruct ticks as [|ticks]; [lia|]); cbn [ramp seq map app].
  - assert (E : current + inject_Z target / 20 == inject_Z target).
    { rewrite Hcur. replace j with 19%nat by lia.
      change (inject_Z (Z.of_nat 19)) with 19. field. }
    rewrite (Qleb_comp _ _ (Qeq_refl _) _ _ E).
    assert (Hle : Qle_bool (inject_Z target) (inject_Z target) = true)
      by (apply Qle_bool_iff, Qle_refl).
    now rewrite Hle.
  - assert (E : current + inject_Z target / 20
                == inject_Z (Z.of_nat (S j)) * (inject_Z target / 20)).
    { rewrite Hcur, Nat2Z.inj_succ, <- Z.add_1_r, inject_Z_plus.
      change (inject_Z 1) with 1. ring. }
    assert (Hbelow : Qle_bool (inject_Z target)
                       (current + inject_Z target / 20) = false).
    { apply not_true_is_false. intros Hle. apply Qle_bool_iff in Hle.
      rewrite E in Hle.
      assert (Hj' : inject_Z (Z.of_nat (S j)) <= 19).
      { change 19 with (inject_Z 19). rewrite <- Zle_Qle. lia. }
      assert (Hq : inject_Z target / 20 == inject_Z target * (1 # 20))
        by field.
      rewrite Hq in Hle. nra. }
    rewrite Hbelow. f_equal.
    + unfold rampShown, accumulated. now apply Math_round_comp.
    + apply IH; [lia|exact E|lia].
Qed.

(** A target that is not positive is reached at the first tick. *)
Lemma ramp_at_once (ticks : nat) (target : Z) :
  (target <= 0)%Z ->
  ramp (S ticks) 0 (inject_Z target / 20) target = [target].
Proof.
  intros Hneg. cbn [ramp].
  assert (Hle : Qle_bool (inject_Z target) (0 + inject_Z target / 20) = true).
  { apply Qle_bool_iff.
    assert (Ht : inject_Z target <= 0).
    { change 0 with (inject_Z 0). now rewrite <- Zle_Qle. }
    assert (Hq : inject_Z target / 20 == inject_Z target * (1 # 20))
      by field.
    rewrite Hq. lra. }
  now rewrite Hle.
Qed.

Lemma accumulated_below (target : Z) (k : nat) :
  (0 < target)%Z -> (k < 20)%nat -> accumulated target k < inject_Z target.
Proof.
  intros Hpos Hk. unfold accumulated.
  assert (Ht : 0 < inject_Z target).
  { change 0 with (inject_Z 0). now rewrite <- Zlt_Qlt. }
  assert (Hk' : inject_Z (Z.of_nat k) <= 19).
  { change 19 with (inject_Z 19). rewrite <- Zle_Qle. lia. }
  assert (Hq : inject_Z target / 20 == inject_Z target * (1 # 20)) by field.
  rewrite Hq. nra.
Qed.

Lemma accumulated_reaches (target : Z) :
  inject_Z target <= accumulated target (ticksToTarget target).
Proof.
  unfold accumulated, ticksToTarget.
  assert (Hq : inject_Z target / 20 == inject_Z target * (1 # 20)) by field.
  destruct (Z.ltb_spec 0 target) as [Hpos|Hneg].
  - change (inject_Z (Z.of_nat 20)) with 20. rewrite Hq. lra.
  - change (inject_Z (Z.of_nat 1)) with 1.
    assert (Ht : inject_Z target <= 0).
    { change 0 with (inject_Z 0). now rewrite <- Zle_Qle. }
    rewrite Hq. lra.
Qed.



(** The scenario of the specification: target 100, steps of 5. *)
Example ramp_to_100 :
  ramp 24 0 (inject_Z 100 / 20) 100
  = [5; 10; 15; 20; 25; 30; 35; 40; 45; 50;
     55; 60; 65; 70; 75; 80; 85; 90; 95; 100]%Z
  /\ inject_Z 100 / 20 == 5.
Proof. split; reflexivity. Qed.


(* ------------------------------------------------------------------ *)
(** ** Progress along a run *)

Lemma progressTrace_app (a b : list Action) (st : State) :
  progressTrace (a ++ b) st
  = progressTrace a st ++ progressTrace b (exec a st).
Proof.
  revert st. induction a as [|x a IH]; intros st; cbn; [reflexivity|].
  now rewrite IH.
Qed.

Lemma last_progressTrace (acts : list Action) (st : State) :
  last (progressTrace acts st) (progress st) = progress (exec acts st).
Proof.
  revert st. induction acts as [|a acts IH]; intros st; [reflexivity|].
  cbn [progressTrace]. rewrite exec_cons, <- IH.
  destruct acts as [|b acts]; [reflexivity|].
  cbn [progressTrace].
  set (tail := progressTrace acts (apply b (apply a st))).
  set (pb := progress (apply b (apply a st))).
  change (last (pb :: tail) (progress st)
          = last (pb :: tail) (progress (apply a st))).
  apply last_cons_default.
Qed.

Lemma nonDecreasing_app (from : Q) (l1 l2 : list Q) :
  nonDecreasing from l1 -> nonDecreasing (last l1 from) l2 ->
  nonDecreasing from (l1 ++ l2).
Proof.
  revert from. induction l1 as [|p l1 IH]; intros from H1 H2; cbn in *.
  - exact H2.
  - destruct H1 as [Hp H1]. split; [exact Hp|]. apply IH; [exact H1|].
    destruct l1 as [|q l1]; [exact H2|].
    change (nonDecreasing (last (q :: l1) from) l2) in H2.
    now rewrite (last_cons_default l1 q p from).
Qed.

Lemma climbs_nil (st : State) : climbs [] st.
Proof. exact I. Qed.

Lemma climbs_cons (a : Action) (rest : list Action) (st : State) :
  progress st <= progress (apply a st) -> climbs rest (apply a st) ->
  climbs (a :: rest) st.
Proof. unfold climbs. cbn. auto. Qed.

Lemma climbs_app (a b : list Action) (st : State) :
  climbs a st -> climbs b (exec a st) -> climbs (a ++ b) st.
Proof.
  unfold climbs. intros Ha Hb. rewrite progressTrace_app.
  apply nonDecreasing_app; [exact Ha|]. now rewrite last_progressTrace.
Qed.

Create HintDb climb.
#[local] Hint Resolve climbs_nil climbs_cons climbs_app Qle_refl : climb.

(** A loop that stops without calling a setter leaves progress alone. *)
Ltac stops_here Hrun bound :=
  inversion Hrun; subst; split; [apply climbs_nil|];
  cbn [exec fold_left]; exact bound.

(** The latency phase climbs from 5 to at most 14. *)
Lemma latencyLoop_climbs (remaining : nat) :
  forall (i : Z) (script : list Probe) (pings : list Q) (acts : list Action)
         (r : Phase (list Q)) (st : State),
    latencyLoop remaining i script pings = (acts, r) ->
    progress st <= inject_Z (5 + i) ->
    climbs acts st
    /\ progress (exec acts st) <= inject_Z (5 + i + Z.of_nat remaining).
Proof.
  induction remaining as [|n IH]; intros i script pings acts r st Hrun Hp;
    cbn [latencyLoop] in Hrun.
  - inversion Hrun; subst. split; [apply climbs_nil|].
    cbn [exec fold_left Z.of_nat]. now rewrite Z.add_0_r.
  - assert (Hbound : progress st <= inject_Z (5 + i + Z.of_nat (S n))).
    { eapply Qle_trans; [exact Hp|]. rewrite <- Zle_Qle. lia. }
    destruct script as [|[|elapsed] script'];
      [stops_here Hrun Hbound | stops_here Hrun Hbound |].
    destruct (latencyLoop n (i + 1) script' (pings ++ [elapsed]))
      as [acts' r'] eqn:Hrec.
    inversion Hrun; subst.
    destruct (IH _ _ _ _ _ (apply (setProgress (inject_Z (5 + i))) st) Hrec)
      as [Hc Hend].
    { cbn [apply progress]. rewrite <- Zle_Qle. lia. }
    split.
    + apply climbs_cons; [exact Hp|exact Hc].
    + rewrite exec_cons. eapply Qle_trans; [exact Hend|].
      rewrite <- Zle_Qle. lia.
Qed.

(** The latency phase calls [setProgress] only. *)
Lemma latencyLoop_frame (remaining : nat) :
  forall (i : Z) (script : list Probe) (pings : list Q) (acts : list Action)
         (r : Phase (list Q)) (st : State),
    latencyLoop remaining i script pings = (acts, r) ->
    testing (exec acts st) = testing st
    /\ logs (exec acts st) = logs st
    /\ metrics (exec acts st) = metrics st
    /\ history (exec acts st) = history st.
Proof.
  induction remaining as [|n IH]; intros i script pings acts r st Hrun;
    cbn [latencyLoop] in Hrun.
  - inversion Hrun; subst. cbn. auto.
  - destruct script as [|[|elapsed] script'];
      try (inversion Hrun; subst; cbn; now auto).
    destruct (latencyLoop n (i + 1) script' (pings ++ [elapsed]))
      as [acts' r'] eqn:Hrec.
    inversion Hrun; subst. rewrite exec_cons.
    apply (IH _ _ _ _ _ (apply (setProgress (inject_Z (5 + i))) st) Hrec).
Qed.

Lemma progressPct_mono (e e' : Q) :
  e <= e' ->
  Qmin (20 + (e / durationLimit) * 60) 80
  <= Qmin (20 + (e' / durationLimit) * 60) 80.
Proof.
  intros H. apply Q.min_le_compat_r.
  unfold durationLimit.
  assert (E : forall x, 20 + x / 6000 * 60 == 20 + x * (1 # 100))
    by (intros x; field).
  rewrite !E. lra.
Qed.

(** The download phase climbs within its band and stays at or below 80. *)
Lemma downloadLoop_climbs (script : list Probe) :
  forall (elapsedTime : Q) (samples : list Q) (acts : list Action)
         (r : Phase (list Q)) (st : State),
    downloadLoop script elapsedTime samples = (acts, r) ->
    clockMonotone script ->
    progress st <= Qmin (20 + (elapsedTime / durationLimit) * 60) 80 ->
    climbs acts st /\ progress (exec acts st) <= 80.
Proof.
  induction script as [|b script IH];
    intros e samples acts r st Hrun Hclock Hp; cbn [downloadLoop] in Hrun;
    assert (Hbound : progress st <= 80)
      by (eapply Qle_trans; [exact Hp|apply Q.le_min_r]).
  - destruct (JS.Qlt_bool e durationLimit); stops_here Hrun Hbound.
  - destruct (JS.Qlt_bool e durationLimit); [|stops_here Hrun Hbound].
    destruct b as [|elapsed]; [stops_here Hrun Hbound|].
    destruct (average (samples ++ [speedOfBatch elapsed])) as [avg|];
      [|stops_here Hrun Hbound].
    destruct (downloadLoop script (e + elapsed)
                (samples ++ [speedOfBatch elapsed])) as [acts' r'] eqn:Hrec.
    inversion Hrun; subst.
    inversion Hclock as [|? ? Hpos Hclock']; subst.
    set (st1 := apply (setMetrics (withDownload avg)) st).
    set (st2 := apply (setProgress
                         (Qmin (20 + (e + elapsed) / durationLimit * 60) 80))
                      st1).
    destruct (IH _ _ _ _ st2 Hrec Hclock') as [Hc Hend].
    { cbn. apply Qle_refl. }
    split.
    + apply climbs_cons; [apply Qle_refl|].
      apply climbs_cons; [|exact Hc].
      cbn. eapply Qle_trans; [exact Hp|]. apply progressPct_mono. lra.
    + rewrite !exec_cons. exact Hend.
Qed.

(** Each tick of the ramp adds one, capped at 100. *)
Lemma upRamp_climbs (shown : list Z) :
  forall st : State,
    progress st <= 100 ->
    let acts :=
      flat_map (fun v => [setMetrics (withUpload v); stepProgress 100])
               shown in
    climbs acts st /\ progress (exec acts st) <= 100.
Proof.
  induction shown as [|v shown IH]; intros st Hp; cbn [flat_map app].
  - split; [apply climbs_nil|exact Hp].
  - set (st1 := apply (setMetrics (withUpload v)) st).
    set (st2 := apply (stepProgress 100) st1).
    destruct (IH st2) as [Hc Hend].
    { cbn [st2 apply progress]. apply Q.le_min_r. }
    split.
    + apply climbs_cons; [apply Qle_refl|].
      apply climbs_cons; [|exact Hc].
      cbn [st1 apply progress]. apply Q.min_glb; lra.
    + rewrite !exec_cons. exact Hend.
Qed.

(** The catch block logs the failure and releases the flag; it does not
    touch progress. *)
Lemma catchBlock_effect (w : World) (st : State) :
  climbs (catchBlock w) st
  /\ progress (exec (catchBlock w) st) = progress st
  /\ testing (exec (catchBlock w) st) = false
  /\ logs (exec (catchBlock w) st)
     = LogEntry.mk (endTime w) error failureMessage :: firstn 49 (logs st).
Proof.
  unfold climbs. cbn [catchBlock progressTrace exec fold_left apply
                      progress testing logs nonDecreasing].
  repeat split; try apply Qle_refl.
  change 50%Z with (Z.of_nat 50). now rewrite slice_prefix.
Qed.

Lemma uploadPhase_climbs (w : World) (captured : list SpeedTestResult.t)
      (finalSpeedMbps avgPing jitter : Z) (st : State) :
  progress st <= 100 ->
  climbs (uploadPhase w captured finalSpeedMbps avgPing jitter) st
  /\ progress (exec (uploadPhase w captured finalSpeedMbps avgPing jitter) st)
     = 100.
Proof.
  intros Hp. unfold uploadPhase, upRamp.
  set (shown := ramp _ _ _ _).
  destruct (upRamp_climbs shown st Hp) as [Hc Hend]. split.
  - apply climbs_app; [exact Hc|].
    unfold climbs. cbn. repeat split; try apply Qle_refl. exact Hend.
  - rewrite exec_app. reflexivity.
Qed.

Lemma tryBlock_climbs (w : World) (captured : list SpeedTestResult.t)
      (avgPing jitter : Z) (acts : list Action) (o : Outcome) (st : State) :
  tryBlock w captured avgPing jitter = (acts, o) ->
  clockMonotone (batches w) ->
  progress st <= 20 ->
  climbs acts st
  /\ (o = Completed -> progress (exec acts st) = 100)
  /\ (o = Caught -> progress (exec acts st) <= 80).
Proof.
  intros Hrun Hclock Hp. unfold tryBlock in Hrun.
  destruct (downloadLoop (batches w) 0 []) as [a2 r] eqn:Hloop.
  destruct (downloadLoop_climbs _ _ _ _ _ st Hloop Hclock) as [Hc Hend].
  { apply Q.min_glb; [|lra]. unfold durationLimit.
    assert (E : 20 + 0 / 6000 * 60 == 20) by field. rewrite E. exact Hp. }
  destruct (catchBlock_effect w (exec a2 st)) as (Hcc & Hcp & _).
  destruct r as [samples| |].
  - destruct (finalSpeed samples) as [finalSpeedMbps|].
    + inversion Hrun; subst. clear Hrun.
      set (st1 := apply (setMetrics (withDownload finalSpeedMbps))
                        (exec a2 st)).
      destruct (uploadPhase_climbs w captured finalSpeedMbps avgPing jitter
                                   st1) as [Hu Hfin].
      { cbn [st1 apply progress]. lra. }
      split; [|split; [|discriminate]].
      * apply climbs_app; [exact Hc|].
        apply climbs_cons; [apply Qle_refl|exact Hu].
      * intros _. rewrite exec_app, exec_cons. exact Hfin.
    + inversion Hrun; subst. split; [|split; [discriminate|]].
      * auto with climb.
      * intros _. rewrite exec_app, Hcp. exact Hend.
  - inversion Hrun; subst. split; [|split; [discriminate|]].
    + auto with climb.
    + intros _. rewrite exec_app, Hcp. exact Hend.
  - inversion Hrun; subst. split; [exact Hc|split; discriminate].
Qed.




(* ------------------------------------------------------------------ *)
(** ** Completed runs *)

Lemma completed_run (w : World) (st : State) :
  outcome w st = Completed ->
  testing st = false
  /\ exists a1 pings avgPing jitter a2 samples finalSpeedMbps,
      latencyLoop 10 0 (latencyProbes w) [] = (a1, Done pings)
      /\ latencyStats pings = Some (avgPing, jitter)
      /\ downloadLoop (batches w) 0 [] = (a2, Done samples)
      /\ finalSpeed samples = Some finalSpeedMbps
      /\ fst (runSpeedTest w st)
         = prologue w ++ a1 ++ setMetrics (withLatency avgPing jitter)
             :: a2 ++ setMetrics (withDownload finalSpeedMbps)
             :: uploadPhase w (history st) finalSpeedMbps avgPing jitter.
Proof.
  unfold outcome, runSpeedTest, tryBlock.
  destruct (testing st); [discriminate|].
  destruct (latencyLoop 10 0 (latencyProbes w) [])
    as [a1 [pings| |]] eqn:Hlat; try discriminate.
  destruct (latencyStats pings) as [[avgPing jitter]|] eqn:Hstats;
    try discriminate.
  destruct (downloadLoop (batches w) 0 []) as [a2 [samples| |]] eqn:Hloop;
    try discriminate.
  destruct (finalSpeed samples) as [finalSpeedMbps|] eqn:Hfin;
    try discriminate.
  intros _. split; [reflexivity|].
  exists a1, pings, avgPing, jitter, a2, samples, finalSpeedMbps.
  repeat split; auto.
Qed.

Lemma exec_uploadPhase (w : World) (captured : list SpeedTestResult.t)
      (finalSpeedMbps avgPing jitter : Z) (st : State) :
  let up := simulatedUpload finalSpeedMbps (connection w) in
  let finalResults :=
    mkMetrics finalSpeedMbps up avgPing jitter (Z.max 0 (100 - avgPing)) in
  let st' := exec (uploadPhase w captured finalSpeedMbps avgPing jitter) st in
  metrics st' = finalResults
  /\ testing st' = false
  /\ history st'
     = History.saveResult captured (isp w) (endStamp w) (endDate w)
                          finalResults.
Proof.
  cbn zeta. unfold uploadPhase. rewrite exec_app. cbn. auto.
Qed.

(** What a completed run leaves behind: the rounded figures in the
    metrics, the flag released, and one more entry in the history. *)
Lemma after_completed (w : World) (st : State) :
  outcome w st = Completed ->
  exists pings samples avgPing jitter finalSpeedMbps a1 a2,
    latencyLoop 10 0 (latencyProbes w) [] = (a1, Done pings)
    /\ latencyStats pings = Some (avgPing, jitter)
    /\ downloadLoop (batches w) 0 [] = (a2, Done samples)
    /\ finalSpeed samples = Some finalSpeedMbps
    /\ metrics (after w st)
       = mkMetrics finalSpeedMbps
                   (simulatedUpload finalSpeedMbps (connection w))
                   avgPing jitter (Z.max 0 (100 - avgPing))
    /\ testing (after w st) = false
    /\ history (after w st)
       = History.saveResult (history st) (isp w) (endStamp w) (endDate w)
                            (metrics (after w st)).
Proof.
  intros Ho. destruct (completed_run w st Ho)
    as (_ & a1 & pings & avgPing & jitter & a2 & samples & fin
          & Hlat & Hstats & Hloop & Hfin & Hacts).
  exists pings, samples, avgPing, jitter, fin, a1, a2.
  repeat (split; [assumption|]).
  unfold after. rewrite Hacts.
  rewrite exec_app, exec_app, exec_cons, exec_app, exec_cons.
  match goal with
  | |- context [exec (uploadPhase _ _ _ _ _) ?s] =>
      destruct (exec_uploadPhase w (history st) fin avgPing jitter s)
        as (Hm & Ht & Hh)
  end.
  rewrite Hm, Ht, Hh. auto.
Qed.

Lemma execStore_app (JSON_stringify : list SpeedTestResult.t -> string)
      (a b : list Action) (ls : History.Storage) :
  execStore JSON_stringify (a ++ b) ls
  = execStore JSON_stringify b (execStore JSON_stringify a ls).
Proof. apply fold_left_app. Qed.

Lemma execStore_cons (JSON_stringify : list SpeedTestResult.t -> string)
      (a : Action) (rest : list Action) (ls : History.Storage) :
  execStore JSON_stringify (a :: rest) ls
  = execStore JSON_stringify rest (store JSON_stringify a ls).
Proof. reflexivity. Qed.

(** A completed run rewrites the stored history in full: the text under
    the storage key is the serialised new history. *)
Lemma completed_run_persists
      (JSON_stringify : list SpeedTestResult.t -> string)
      (w : World) (st : State) (ls : History.Storage) :
  outcome w st = Completed ->
  execStore JSON_stringify (fst (runSpeedTest w st)) ls History.storageKey
  = Some (JSON_stringify (history (after w st))).
Proof.
  intros Ho.
  destruct (completed_run w st Ho)
    as (_ & a1 & pings & avgPing & jitter & a2 & samples & fin
          & _ & _ & _ & _ & Hacts).
  unfold after. rewrite Hacts.
  rewrite execStore_app, execStore_app, execStore_cons, execStore_app,
    execStore_cons.
  rewrite exec_app, exec_app, exec_cons, exec_app, exec_cons.
  match goal with
  | |- context [exec (uploadPhase _ _ _ _ _) ?s] =>
      destruct (exec_uploadPhase w (history st) fin avgPing jitter s)
        as (_ & _ & ->)
  end.
  unfold uploadPhase. rewrite execStore_app.
  cbn [execStore fold_left store].
  unfold History.persist, History.setItem. now rewrite String.eqb_refl.
Qed.

(* ------------------------------------------------------------------ *)
(** ** Upload estimate *)

Lemma uploadRatio_cases (c : option Connection.t) :
  uploadRatio c = 0.8 \/ uploadRatio c = 0.2.
Proof.
  unfold uploadRatio. destruct c as [c|]; auto.
  destruct (Connection.rtt c) as [rtt|]; auto.
  destruct (JS.Qlt_bool rtt 15); auto.
Qed.

(** C5, as the code has it.  In every completed run the upload figure is
    the final download figure times a fixed ratio, rounded to the nearest
    integer; the ratio is 0.8 or 0.2 and is chosen from the connection
    hint alone, and without a hint it is 0.2, whatever the ping.  The
    history entry of the run carries the same two figures. *)
Theorem upload_is_rounded_share_of_download (w : World) (st : State) :
  outcome w st = Completed ->
  let m := metrics (after w st) in
  upload m
  = JS.Math_round (inject_Z (download m) * uploadRatio (connection w))
  /\ (uploadRatio (connection w) = 0.8 \/ uploadRatio (connection w) = 0.2)
  /\ (connection w = None ->
      upload m = JS.Math_round (inject_Z (download m) * 0.2))
  /\ exists newest older,
       history (after w st) = newest :: older
       /\ SpeedTestResult.upload newest = upload m
       /\ SpeedTestResult.download newest = download m.
Proof.
  intros Ho m. subst m.
  destruct (after_completed w st Ho)
    as (pings & samples & avgPing & jitter & fin & a1 & a2
          & _ & _ & _ & _ & Hm & _ & Hh).
  rewrite Hh, Hm. cbn [upload download]. repeat split.
  - apply uploadRatio_cases.
  - now intros ->.
  - rewrite saveResult_cons. do 2 eexists.
    split; [reflexivity|]. split; reflexivity.
Qed.

Lemma upload_witness :
  outcome steadyWorld initialState = Completed
  /\ download (metrics (after steadyWorld initialState)) = 120%Z
  /\ upload (metrics (after steadyWorld initialState)) = 96%Z
  /\ upload (metrics (after steadyWorld initialState))
     = JS.Math_round
         (inject_Z (download (metrics (after steadyWorld initialState)))
          * uploadRatio (connection steadyWorld))
  /\ connection (slowLink tenProbes) = None
  /\ outcome (slowLink tenProbes) initialState = Completed
  /\ upload (metrics (after (slowLink tenProbes) initialState))
     = JS.Math_round
         (inject_Z (download (metrics (after (slowLink tenProbes)
                                             initialState))) * 0.2).
Proof.
  split; [reflexivity|]. split; [reflexivity|]. split; [reflexivity|].
  split.
  { apply (upload_is_rounded_share_of_download steadyWorld initialState).
    reflexivity. }
  split; [reflexivity|]. split; [reflexivity|].
  apply (upload_is_rounded_share_of_download (slowLink tenProbes)
                                             initialState);
    reflexivity.
Defined.

(** Release v3.0.0 has no ping fallback either: without a hint the ratio
    is 0.3. *)
Lemma V30_uploadRatio_without_hint :
  V30.uploadRatio None = 0.3
  /\ forall speedMbps : Z,
       V30.simulatedUpload speedMbps None
       = JS.Math_round (inject_Z speedMbps * 0.3).
Proof. split; reflexivity. Qed.

(** C5, as stated, fails: without a connection hint a download of
    12 Mbps gives the upload 2, which is neither 12 * 0.2 nor 12 * 0.8,
    and the same 2 whether the ping is 21 ms or 200 ms. *)
Lemma upload_neither_exact_nor_ping_derived :
  connection (slowLink tenProbes) = None
  /\ outcome (slowLink tenProbes) initialState = Completed
  /\ outcome (slowLink (repeat 200 10)) initialState = Completed
  /\ ping (metrics (after (slowLink tenProbes) initialState)) = 21%Z
  /\ ping (metrics (after (slowLink (repeat 200 10)) initialState)) = 200%Z
  /\ download (metrics (after (slowLink tenProbes) initialState)) = 12%Z
  /\ upload (metrics (after (slowLink tenProbes) initialState)) = 2%Z
  /\ upload (metrics (after (slowLink (repeat 200 10)) initialState)) = 2%Z
  /\ ~ inject_Z 2 == inject_Z 12 * 0.2
  /\ ~ inject_Z 2 == inject_Z 12 * 0.8.
Proof.
  repeat (split; [reflexivity|]).
  split; intros H; vm_compute in H; discriminate.
Qed.

(* ------------------------------------------------------------------ *)
(** ** Failures *)

(** A rejection in the download phase is caught: the failure is logged
    first in the Event Log and the flag is released. *)
Lemma download_failure_is_caught (w : World) (st : State) :
  outcome w st = Caught ->
  testing (after w st) = false
  /\ exists older,
      logs (after w st)
      = LogEntry.mk (endTime w) error failureMessage :: older.
Proof.
  unfold outcome, after, runSpeedTest, tryBlock.
  destruct (testing st); [discriminate|].
  destruct (latencyLoop 10 0 (latencyProbes w) []) as [a1 [pings| |]];
    try discriminate.
  destruct (latencyStats pings) as [[avgPing jitter]|]; try discriminate.
  destruct (downloadLoop (batches w) 0 []) as [a2 [samples| |]];
    [destruct (finalSpeed samples) | | ]; try discriminate;
    intros _; cbn [fst];
    rewrite exec_app, exec_app, exec_cons, exec_app;
    match goal with
    | |- context [exec (catchBlock w) ?s] =>
        destruct (catchBlock_effect w s) as (_ & _ & -> & ->)
    end; eauto.
Qed.

(** A rejection in the latency phase is not: the promise of the run
    rejects, the flag stays set, and the log gains only the entry written
    at the start. *)
Lemma latency_failure_is_raised (w : World) (st : State)
      (acts : list Action) :
  testing st = false ->
  latencyLoop 10 0 (latencyProbes w) [] = (acts, Throws) ->
  outcome w st = Raised
  /\ testing (after w st) = true
  /\ logs (after w st)
     = LogEntry.mk (startTime w) info "Starting Precision Diagnostics..."
         :: firstn 49 (logs st).
Proof.
  intros Hidle Hlat. unfold outcome, after, runSpeedTest.
  rewrite Hidle, Hlat. cbn [fst snd]. split; [reflexivity|].
  rewrite exec_app.
  destruct (latencyLoop_frame _ _ _ _ _ _ (exec (prologue w) st) Hlat)
    as (-> & -> & _).
  split; [reflexivity|].
  cbn [prologue exec fold_left apply logs].
  change 50%Z with (Z.of_nat 50). now rewrite slice_prefix.
Qed.

(** The same input on release v3.0.0, and a run of it that goes well. *)
Example V30_steady_run :
  V30.outcome steadyWorldV30 initialState = Completed
  /\ testing (V30.after steadyWorldV30 initialState) = false
  /\ progress (V30.after steadyWorldV30 initialState) == 100
  /\ metrics (V30.after steadyWorldV30 initialState) = mkMetrics 19 6 21 4 79.
Proof. repeat split. Qed.

(** C2 at the failing input.  When the first latency probe rejects, the
    run raises to its caller, [testing] stays true, progress stays at 0,
    and the Event Log holds no error entry; in release v3.0.0 as well. *)
Theorem latency_rejection_escapes :
  outcome firstProbeRejected initialState = Raised
  /\ testing (after firstProbeRejected initialState) = true
  /\ progress (after firstProbeRejected initialState) = 0
  /\ logs (after firstProbeRejected initialState)
     = [LogEntry.mk "10:00:00" info "Starting Precision Diagnostics..."]
  /\ Forall (fun entry => LogEntry.type entry <> error)
            (logs (after firstProbeRejected initialState))
  /\ V30.outcome firstProbeRejected initialState = Raised
  /\ testing (V30.after firstProbeRejected initialState) = true
  /\ Forall (fun entry => LogEntry.type entry <> error)
            (logs (V30.after firstProbeRejected initialState)).
Proof.
  repeat (split; [reflexivity|]).
  split; [repeat constructor; discriminate|].
  repeat (split; [reflexivity|]).
  repeat constructor. discriminate.
Qed.

(* ------------------------------------------------------------------ *)
(** * Further properties of the engine *)

(** ** Event Log *)

Lemma addLog_entry_first (type : LogType) (now message : string) (st : State) :
  logs (apply (addLog type now message) st)
  = LogEntry.mk now type message :: firstn 49 (logs st).
Proof.
  cbn [apply logs]. change 50%Z with (Z.of_nat 50). now rewrite slice_prefix.
Qed.

(** Whatever the setters called, an Event Log of at most 50 entries stays
    at most 50 entries long, and each [addLog] puts its entry first and
    keeps the 49 most recent older ones in their order. *)
Theorem logs_stay_bounded (acts : list Action) (st : State) :
  (length (logs st) <= 50)%nat ->
  (length (logs (exec acts st)) <= 50)%nat
  /\ forall type now message,
       logs (exec (acts ++ [addLog type now message]) st)
       = LogEntry.mk now type message :: firstn 49 (logs (exec acts st)).
Proof.
  intros Hlen. split.
  - revert st Hlen. induction acts as [|a acts IH]; intros st Hlen;
      [exact Hlen|].
    rewrite exec_cons. apply IH.
    destruct a; try exact Hlen.
    rewrite addLog_entry_first. cbn [length]. rewrite length_firstn. lia.
  - intros type now message. rewrite exec_app.
    apply addLog_entry_first.
Qed.

Lemma logs_stay_bounded_witness :
  (length (logs initialState) <= 50)%nat
  /\ (length (logs (exec (fst (runSpeedTest steadyWorld initialState))
                         initialState)) <= 50)%nat.
Proof.
  split; [cbn; lia|].
  apply (logs_stay_bounded (fst (runSpeedTest steadyWorld initialState))
                           initialState).
  cbn. lia.
Defined.

Lemma exec_quiet (acts : list Action) :
  Forall quiet acts ->
  forall st,
    testing (exec acts st) = testing st
    /\ logs (exec acts st) = logs st
    /\ history (exec acts st) = history st.
Proof.
  induction 1 as [|a acts Ha _ IH]; intros st; [now cbn|].
  rewrite exec_cons. destruct (IH (apply a st)) as (-> & -> & ->).
  destruct a; cbn in Ha; try contradiction; now cbn.
Qed.

Lemma latencyLoop_quiet (remaining : nat) :
  forall i script pings acts r,
    latencyLoop remaining i script pings = (acts, r) -> Forall quiet acts.
Proof.
  induction remaining as [|n IH]; intros i script pings acts r Hrun;
    cbn [latencyLoop] in Hrun.
  - inversion Hrun. constructor.
  - destruct script as [|[|elapsed] script'];
      try (inversion Hrun; constructor).
    destruct (latencyLoop n (i + 1) script' (pings ++ [elapsed]))
      as [acts' r'] eqn:Hrec.
    inversion Hrun; subst. constructor; [exact I|]. eapply IH, Hrec.
Qed.

Lemma downloadLoop_quiet (script : list Probe) :
  forall e samples acts r,
    downloadLoop script e samples = (acts, r) -> Forall quiet acts.
Proof.
  induction script as [|b script IH]; intros e samples acts r Hrun;
    cbn [downloadLoop] in Hrun.
  - destruct (JS.Qlt_bool e durationLimit); inversion Hrun; constructor.
  - destruct (JS.Qlt_bool e durationLimit);
      [|inversion Hrun; constructor].
    destruct b as [|elapsed]; [inversion Hrun; constructor|].
    destruct (average (samples ++ [speedOfBatch elapsed])) as [avg|];
      [|inversion Hrun; constructor].
    destruct (downloadLoop script (e + elapsed)
                (samples ++ [speedOfBatch elapsed])) as [acts' r'] eqn:Hrec.
    inversion Hrun; subst.
    constructor; [exact I|]. constructor; [exact I|]. eapply IH, Hrec.
Qed.

Lemma upRamp_quiet (ticks : nat) (target : Z) :
  Forall quiet (upRamp ticks target).
Proof.
  unfold upRamp. induction (ramp ticks 0 (inject_Z target / 20) target)
    as [|v shown IH]; cbn [flat_map app]; repeat constructor. exact IH.
Qed.



(** ** The download phase *)

Lemma Qlt_bool_true (x y : Q) : JS.Qlt_bool x y = true <-> x < y.
Proof.
  unfold JS.Qlt_bool. rewrite negb_true_iff. split.
  - intros H. destruct (Qlt_le_dec x y) as [Hlt|Hle]; [exact Hlt|].
    apply Qle_bool_iff in Hle. congruence.
  - intros Hlt. apply not_true_is_false. intros Hle.
    apply Qle_bool_iff in Hle. lra.
Qed.

Lemma Qlt_bool_false (x y : Q) : JS.Qlt_bool x y = false <-> y <= x.
Proof.
  unfold JS.Qlt_bool. rewrite negb_false_iff. apply Qle_bool_iff.
Qed.

Lemma average_some (samples : list Q) (x : Q) :
  average (samples ++ [x]) <> None.
Proof.
  rewrite average_mean; [discriminate|]. now destruct samples.
Qed.

Lemma total_cons (x : Q) (arr : list Q) :
  JS.total (x :: arr) = x + JS.total arr.
Proof. reflexivity. Qed.

(** How the loop ends, read off the script: it consumes resolved batches
    while the elapsed time is below the limit; it is done at the first
    batch boundary at or past the limit, throws at a rejected batch and
    blocks when the script runs out. *)
Lemma downloadLoop_inv (script : list Probe) :
  forall (e : Q) (acc : list Q) (acts : list Action) (r : Phase (list Q)),
    downloadLoop script e acc = (acts, r) ->
    exists ds rest,
      script = map Resolved ds ++ rest
      /\ (ds <> [] -> e + JS.total (removelast ds) < durationLimit)
      /\ ((r = Done (acc ++ map speedOfBatch ds)
           /\ durationLimit <= e + JS.total ds
           /\ (e < durationLimit -> ds <> []))
          \/ (r = Throws /\ e + JS.total ds < durationLimit
              /\ exists rest', rest = Rejected :: rest')
          \/ (r = Blocks /\ e + JS.total ds < durationLimit /\ rest = [])).
Proof.
  induction script as [|b script IH]; intros e acc acts r Hrun;
    cbn [downloadLoop] in Hrun;
    destruct (JS.Qlt_bool e durationLimit) eqn:Hlimit.
  - apply Qlt_bool_true in Hlimit. inversion Hrun; subst.
    exists [], []. split; [reflexivity|]. split; [congruence|].
    right. right. cbn. repeat split; auto. lra.
  - apply Qlt_bool_false in Hlimit. inversion Hrun; subst.
    exists [], []. split; [reflexivity|]. split; [congruence|].
    left. cbn. rewrite app_nil_r. repeat split; auto; lra.
  - apply Qlt_bool_true in Hlimit. destruct b as [|elapsed].
    + inversion Hrun; subst. exists [], (Rejected :: script).
      split; [reflexivity|]. split; [congruence|].
      right. left. cbn. repeat split; eauto. lra.
    + destruct (average (acc ++ [speedOfBatch elapsed])) as [avg|] eqn:Havg;
        [|now apply average_some in Havg].
      destruct (downloadLoop script (e + elapsed)
                  (acc ++ [speedOfBatch elapsed])) as [acts' r'] eqn:Hrec.
      inversion Hrun; subst.
      destruct (IH _ _ _ _ Hrec) as (ds & rest & -> & Hprev & Hcases).
      exists (elapsed :: ds), rest. split; [reflexivity|]. split.
      * intros _. destruct ds as [|d ds].
        -- cbn. lra.
        -- change (removelast (elapsed :: d :: ds))
             with (elapsed :: removelast (d :: ds)).
           rewrite total_cons.
           assert (H : d :: ds <> []) by discriminate.
           specialize (Hprev H). lra.
      * rewrite total_cons.
        destruct Hcases as [(-> & Hreach & _)|[(-> & Hbelow & Hrej)
                                              |(-> & Hbelow & ->)]].
        -- left. cbn [map]. rewrite <- app_assoc. cbn [app].
           repeat split; [lra|discriminate].
        -- right. left. repeat split; [lra|exact Hrej].
        -- right. right. repeat split. lra.
  - apply Qlt_bool_false in Hlimit. inversion Hrun; subst.
    exists [], (b :: script). split; [reflexivity|]. split; [congruence|].
    left. cbn. rewrite app_nil_r. repeat split; auto; lra.
Qed.

Lemma finalSpeed_some (samples : list Q) :
  samples <> [] -> exists v, finalSpeed samples = Some v.
Proof.
  intros Hne. unfold finalSpeed. rewrite sort_length.
  destruct (Z.ltb_spec 2 (Z.of_nat (length samples))) as [Hlong|Hshort].
  - destruct (slice_sorted_trimmed samples) as [-> Hmid]; [lia|].
    rewrite average_mean by exact Hmid. eauto.
  - rewrite average_mean; [eauto|].
    intros Hnil. apply Hne, Permutation_nil. rewrite <- Hnil.
    apply Permutation_sym, sort_perm.
Qed.

(** The catch block runs only on a rejected batch: whenever a run ends in
    it, the batches before the rejected one all resolved and took less
    than the time budget together.  The aggregation itself never throws,
    because the loop always collects at least one sample. *)
Theorem caught_only_on_rejection (w : World) (st : State) :
  outcome w st = Caught ->
  exists ds rest,
    batches w = map Resolved ds ++ Rejected :: rest
    /\ JS.total ds < durationLimit.
Proof.
  unfold outcome, runSpeedTest, tryBlock.
  destruct (testing st); [discriminate|].
  destruct (latencyLoop 10 0 (latencyProbes w) []) as [a1 [pings| |]];
    try discriminate.
  destruct (latencyStats pings) as [[avgPing jitter]|]; try discriminate.
  destruct (downloadLoop (batches w) 0 []) as [a2 r] eqn:Hloop.
  destruct (downloadLoop_inv _ _ _ _ _ Hloop)
    as (ds & rest & Hscript & _ & Hcases).
  destruct Hcases as [(-> & _ & Hne)|[(-> & Hbelow & rest' & ->)
                                     |(-> & _ & _)]].
  - cbn [app]. destruct (finalSpeed_some (map speedOfBatch ds)) as [v ->];
      [|discriminate].
    assert (H : ds <> []) by (apply Hne; unfold durationLimit; lra).
    destruct ds; [congruence|discriminate].
  - intros _. exists ds, rest'. split; [exact Hscript|]. lra.
  - discriminate.
Qed.

Lemma caught_only_on_rejection_witness :
  outcome secondBatchRejected initialState = Caught
  /\ exists ds rest,
      batches secondBatchRejected = map Resolved ds ++ Rejected :: rest
      /\ JS.total ds < durationLimit.
Proof.
  split; [reflexivity|].
  apply (caught_only_on_rejection secondBatchRejected initialState).
  reflexivity.
Defined.

Lemma completed_run_batches_aux (w : World) (st : State) :
  outcome w st = Completed ->
  exists ds rest,
    batches w = map Resolved ds ++ rest
    /\ finalSpeed (map speedOfBatch ds)
       = Some (download (metrics (after w st))).
Proof.
  intros Ho.
  destruct (after_completed w st Ho)
    as (pings & samples & avgPing & jitter & fin & a1 & a2
          & _ & _ & Hloop & Hfin & Hm & _ & _).
  destruct (downloadLoop_inv _ _ _ _ _ Hloop)
    as (ds & rest & Hscript & _ & Hcases).
  destruct Hcases as [(Hr & _)|[(Hr & _)|(Hr & _)]]; try discriminate.
  injection Hr as ->. cbn [app] in Hfin.
  exists ds, rest. rewrite Hm. cbn [download]. now split.
Qed.



(** ** Figures of a completed run *)

Lemma latencyLoop_done_inv (remaining : nat) :
  forall i script acc acts pings,
    latencyLoop remaining i script acc = (acts, Done pings) ->
    exists rtts rest,
      script = map Resolved rtts ++ rest
      /\ pings = acc ++ rtts /\ length rtts = remaining.
Proof.
  induction remaining as [|n IH]; intros i script acc acts pings Hrun;
    cbn [latencyLoop] in Hrun.
  - inversion Hrun; subst. exists [], script.
    now rewrite app_nil_r.
  - destruct script as [|[|elapsed] script']; try discriminate.
    destruct (latencyLoop n (i + 1) script' (acc ++ [elapsed]))
      as [acts' r'] eqn:Hrec.
    inversion Hrun; subst.
    destruct (IH _ _ _ _ _ Hrec) as (rtts & rest & -> & -> & <-).
    exists (elapsed :: rtts), rest. rewrite <- app_assoc.
    repeat split.
Qed.

Lemma clockMonotone_resolved (ds : list Q) (rest : list Probe) :
  clockMonotone (map Resolved ds ++ rest) -> Forall (fun d => 0 <= d) ds.
Proof.
  unfold clockMonotone. induction ds as [|d ds IH]; cbn; intros H;
    constructor; inversion H; subst; auto.
Qed.

(** With round trips that are not negative, the signal strength of a
    completed run is 100 minus the ping, floored at 0: a number from 0 to
    100. *)
Theorem signalStrength_range (w : World) (st : State) :
  outcome w st = Completed ->
  clockMonotone (latencyProbes w) ->
  let m := metrics (after w st) in
  (0 <= ping m)%Z
  /\ signalStrength m = Z.max 0 (100 - ping m)
  /\ (0 <= signalStrength m <= 100)%Z.
Proof.
  intros Ho Hclock m. subst m.
  destruct (after_completed w st Ho)
    as (pings & samples & avgPing & jitter & fin & a1 & a2
          & Hlat & Hstats & _ & _ & -> & _ & _).
  cbn [ping signalStrength].
  destruct (latencyLoop_done_inv _ _ _ _ _ _ Hlat)
    as (rtts & rest & Hscript & -> & Hlen).
  cbn [app] in Hstats. rewrite Hscript in Hclock.
  pose proof (clockMonotone_resolved _ _ Hclock) as Hpos.
  assert (Hne : rtts <> []) by (intros ->; discriminate).
  destruct (latencyStats_spec rtts Hne)
    as (lo & hi & _ & _ & Hlo & _ & _ & Hs & _ & _ & Hround & _).
  rewrite Hs in Hstats. injection Hstats as <- _.
  assert (H0 : (0 <= JS.Math_round lo)%Z).
  { rewrite <- (Math_round_Z 0). apply Math_round_mono.
    rewrite Forall_forall in Hpos. now apply Hpos. }
  lia.
Qed.

Lemma signalStrength_range_witness :
  outcome steadyWorld initialState = Completed
  /\ clockMonotone (latencyProbes steadyWorld)
  /\ ping (metrics (after steadyWorld initialState)) = 21%Z
  /\ signalStrength (metrics (after steadyWorld initialState)) = 79%Z
  /\ (0 <= signalStrength (metrics (after steadyWorld initialState)) <= 100)%Z.
Proof.
  assert (Hclock : clockMonotone (latencyProbes steadyWorld))
    by (repeat constructor; discriminate).
  split; [reflexivity|]. split; [exact Hclock|].
  split; [reflexivity|]. split; [reflexivity|].
  apply (signalStrength_range steadyWorld initialState eq_refl Hclock).
Defined.

Lemma Qdiv_nonneg (a b : Q) : 0 <= a -> 0 <= b -> 0 <= a / b.
Proof.
  intros Ha Hb. unfold Qdiv. apply Qmult_le_0_compat; [exact Ha|].
  now apply Qinv_le_0_compat.
Qed.

Lemma speedOfBatch_nonneg (elapsed : Q) :
  0 <= elapsed -> 0 <= speedOfBatch elapsed.
Proof.
  intros H. unfold speedOfBatch, fileSizeBits, streams.
  repeat apply Qdiv_nonneg; try lra.
Qed.

Lemma total_nonneg (arr : list Q) :
  Forall (fun x => 0 <= x) arr -> 0 <= JS.total arr.
Proof.
  induction 1 as [|x arr Hx _ IH]; [apply Qle_refl|].
  rewrite total_cons. lra.
Qed.

Lemma mean_nonneg (arr : list Q) :
  Forall (fun x => 0 <= x) arr -> 0 <= JS.mean arr.
Proof.
  intros H. unfold JS.mean. apply Qdiv_nonneg; [now apply total_nonneg|].
  unfold JS.len. change 0 with (inject_Z 0). rewrite <- Zle_Qle. lia.
Qed.

Lemma Math_round_nonneg (x : Q) : 0 <= x -> (0 <= JS.Math_round x)%Z.
Proof.
  intros H. rewrite <- (Math_round_Z 0). now apply Math_round_mono.
Qed.

Lemma finalSpeed_nonneg (samples : list Q) (v : Z) :
  Forall (fun x => 0 <= x) samples ->
  finalSpeed samples = Some v -> (0 <= v)%Z.
Proof.
  intros Hpos. unfold finalSpeed.
  assert (Hsorted : Forall (fun x => 0 <= x) (JS.sort samples)).
  { rewrite Forall_forall in *. intros x Hx. apply Hpos.
    apply (Permutation_in _ (Permutation_sym (sort_perm samples)) Hx). }
  assert (Hav : forall arr, Forall (fun x => 0 <= x) arr ->
                 average arr = Some v -> (0 <= v)%Z).
  { intros arr Harr Hv. destruct arr as [|x arr]; [discriminate|].
    rewrite average_mean in Hv by discriminate. injection Hv as <-.
    now apply Math_round_nonneg, mean_nonneg. }
  destruct (2 <? Z.of_nat (length (JS.sort samples)))%Z.
  - apply Hav. rewrite slice_inner.
    rewrite Forall_forall in *. intros x Hx. apply Hsorted.
    apply In_firstn in Hx.
    rewrite <- (firstn_skipn 1 (JS.sort samples)).
    apply in_or_app. now right.
  - now apply Hav.
Qed.

(** With batch durations that are not negative, the figures of a
    completed run are ordered: the upload estimate is at least 0 and at
    most the download figure. *)
Theorem upload_within_download (w : World) (st : State) :
  outcome w st = Completed ->
  clockMonotone (batches w) ->
  let m := metrics (after w st) in
  (0 <= upload m <= download m)%Z.
Proof.
  intros Ho Hclock m. subst m.
  destruct (completed_run_batches_aux w st Ho)
    as (ds & rest & Hscript & Hfin).
  destruct (after_completed w st Ho)
    as (pings & samples & avgPing & jitter & fin & a1 & a2
          & _ & _ & _ & _ & Hm & _ & _).
  rewrite Hm in *. cbn [upload download] in *.
  rewrite Hscript in Hclock.
  pose proof (clockMonotone_resolved _ _ Hclock) as Hpos.
  assert (Hfin0 : (0 <= fin)%Z).
  { apply (finalSpeed_nonneg (map speedOfBatch ds)); [|exact Hfin].
    rewrite Forall_forall in *. intros x Hx.
    apply in_map_iff in Hx. destruct Hx as (d & <- & Hd).
    now apply speedOfBatch_nonneg, Hpos. }
  assert (Hq : 0 <= inject_Z fin).
  { change 0 with (inject_Z 0). now rewrite <- Zle_Qle. }
  unfold simulatedUpload.
  assert (Hratio : 0 <= uploadRatio (connection w) <= 1).
  { destruct (uploadRatio_cases (connection w)) as [-> | ->]; lra. }
  split.
  - apply Math_round_nonneg. apply Qmult_le_0_compat; tauto.
  - apply Z.lt_succ_r. unfold JS.Math_round. rewrite Zlt_Qlt.
    eapply Qle_lt_trans; [apply Qfloor_le|].
    unfold Z.succ. rewrite inject_Z_plus. change (inject_Z 1) with 1.
    nra.
Qed.

Lemma upload_within_download_witness :
  outcome steadyWorld initialState = Completed
  /\ clockMonotone (batches steadyWorld)
  /\ (0 <= upload (metrics (after steadyWorld initialState))
      <= download (metrics (after steadyWorld initialState)))%Z.
Proof.
  assert (Hclock : clockMonotone (batches steadyWorld))
    by (repeat constructor; discriminate).
  split; [reflexivity|]. split; [exact Hclock|].
  apply (upload_within_download steadyWorld initialState eq_refl Hclock).
Defined.

(** ** After a run *)

(** The flag a run leaves: released when the run completed or its failure
    was caught, set in every other case. *)
Lemma flag_after_run (w : World) (st : State) :
  testing (after w st)
  = match outcome w st with
    | Completed | Caught => false
    | _ => true
    end.
Proof.
  unfold outcome, after, runSpeedTest.
  destruct (testing st) eqn:Hflag; [exact Hflag|].
  destruct (latencyLoop 10 0 (latencyProbes w) []) as [a1 r] eqn:Hlat.
  pose proof (latencyLoop_quiet _ _ _ _ _ _ Hlat) as Q1.
  assert (H1 : forall s, testing (exec a1 s) = testing s)
    by (intros s; now destruct (exec_quiet _ Q1 s)).
  assert (Hearly : testing (exec (prologue w ++ a1) st) = true)
    by (rewrite exec_app, H1; reflexivity).
  destruct r as [pings| |]; [|exact Hearly|exact Hearly].
  destruct (latencyStats pings) as [[avgPing jitter]|]; [|exact Hearly].
  unfold tryBlock.
  destruct (downloadLoop (batches w) 0 []) as [a2 r2] eqn:Hloop.
  pose proof (downloadLoop_quiet _ _ _ _ _ Hloop) as Q2.
  assert (H2 : forall s, testing (exec a2 s) = testing s)
    by (intros s; now destruct (exec_quiet _ Q2 s)).
  destruct r2 as [samples| |]; cbn [fst snd].
  - destruct (finalSpeed samples) as [fin|]; cbn [fst snd].
    + rewrite exec_app, exec_app, exec_cons, exec_app, exec_cons.
      match goal with
      | |- context [exec (uploadPhase _ _ _ _ _) ?s] =>
          now destruct (exec_uploadPhase w (history st) fin avgPing jitter s)
            as (_ & -> & _)
      end.
    + rewrite exec_app, exec_app, exec_cons, exec_app.
      match goal with
      | |- context [exec (catchBlock w) ?s] =>
          now destruct (catchBlock_effect w s) as (_ & _ & -> & _)
      end.
  - rewrite exec_app, exec_app, exec_cons, exec_app.
    match goal with
    | |- context [exec (catchBlock w) ?s] =>
        now destruct (catchBlock_effect w s) as (_ & _ & -> & _)
    end.
  - rewrite exec_app, exec_app, exec_cons, H2. cbn [apply testing].
    rewrite H1. reflexivity.
Qed.

(** The next invocation is turned away at the guard exactly when the
    previous run neither completed nor was caught.  In particular a run
    whose promise rejected leaves the engine locked: every later
    invocation, whatever the network does, returns at once and changes
    nothing. *)
Theorem next_run_turned_away (w w' : World) (st : State) :
  (outcome w' (after w st) = Ignored
   <-> outcome w st <> Completed /\ outcome w st <> Caught)
  /\ (outcome w st = Raised ->
      runSpeedTest w' (after w st) = ([], Ignored)
      /\ after w' (after w st) = after w st).
Proof.
  pose proof (flag_after_run w st) as Hflag.
  assert (Hnext : testing (after w st) = true
                  <-> outcome w' (after w st) = Ignored).
  { unfold outcome at 1, runSpeedTest.
    destruct (testing (after w st)); [now split|].
    split; [discriminate|].
    destruct (latencyLoop 10 0 (latencyProbes w') []) as [a1 [pings| |]];
      try discriminate.
    destruct (latencyStats pings) as [[avgPing jitter]|]; try discriminate.
    destruct (tryBlock w' _ avgPing jitter) as [rest o] eqn:Htry.
    cbn [snd]. intros ->. unfold tryBlock in Htry.
    destruct (downloadLoop (batches w') 0 []) as [a2 [samples| |]];
      [destruct (finalSpeed samples)| |]; discriminate. }
  split.
  - rewrite <- Hnext, Hflag.
    destruct (outcome w st); split;
      try discriminate; try (intros [H1 H2]; congruence);
      try (intros _; split; discriminate).
  - intros Ho. rewrite Ho in Hflag.
    unfold after at 2, runSpeedTest. rewrite Hflag. split; reflexivity.
Qed.

Lemma next_run_turned_away_witness :
  outcome firstProbeRejected initialState = Raised
  /\ runSpeedTest steadyWorld (after firstProbeRejected initialState)
     = ([], Ignored)
  /\ after steadyWorld (after firstProbeRejected initialState)
     = after firstProbeRejected initialState
  /\ outcome steadyWorld (after secondBatchRejected initialState)
     = Completed.
Proof.
  split; [reflexivity|].
  destruct (next_run_turned_away firstProbeRejected steadyWorld initialState)
    as [_ Hlock].
  destruct (Hlock eq_refl) as [H1 H2].
  split; [exact H1|]. split; [exact H2|reflexivity].
Defined.

(** ** QoS after a run *)

Lemma Qfloor_ge (z : Z) (x : Q) : (z <= Qfloor x)%Z <-> inject_Z z <= x.
Proof.
  split.
  - intros H. eapply Qle_trans; [|apply Qfloor_le]. now rewrite <- Zle_Qle.
  - intros H. rewrite <- (Qfloor_Z z). now apply Qfloor_resp_le.
Qed.

(** After a completed run the verdict on video calls is decided by the
    download figure alone: it passes from 11 Mbps on when the hint gives
    the ratio 0.8, and only from 13 Mbps on with the ratio 0.2, because
    the rounded upload estimate must exceed 2. *)
Theorem video_calls_after_run (w : World) (st : State) :
  outcome w st = Completed ->
  let m := metrics (after w st) in
  exists verdict,
    nth_error (QoS.getQoS m) 2 = Some (QoS.mk "Video Calls" verdict)
    /\ (uploadRatio (connection w) = 0.8 ->
        (verdict = true <-> (11 <= download m)%Z))
    /\ (uploadRatio (connection w) = 0.2 ->
        (verdict = true <-> (13 <= download m)%Z)).
Proof.
  intros Ho m. subst m.
  destruct (after_completed w st Ho)
    as (pings & samples & avgPing & jitter & fin & a1 & a2
          & _ & _ & _ & _ & -> & _ & _).
  eexists. split; [reflexivity|].
  cbn [download upload]. unfold simulatedUpload, JS.Math_round.
  rewrite andb_true_iff, !Z.ltb_lt.
  split; intros ->.
  - assert (H : (2 < Qfloor (inject_Z fin * 0.8 + (1 # 2)))%Z
                <-> (4 <= fin)%Z).
    { rewrite <- Z.le_succ_l. change (Z.succ 2) with 3%Z.
      rewrite Qfloor_ge. change (inject_Z 3) with 3.
      split; intros H.
      - destruct (Z.le_gt_cases 4 fin) as [Hle|Hgt]; [exact Hle|].
        assert (Hq : inject_Z fin <= 3).
        { change 3 with (inject_Z 3). rewrite <- Zle_Qle. lia. }
        lra.
      - assert (Hq : 4 <= inject_Z fin).
        { change 4 with (inject_Z 4). now rewrite <- Zle_Qle. }
        lra. }
    rewrite H. lia.
  - assert (H : (2 < Qfloor (inject_Z fin * 0.2 + (1 # 2)))%Z
                <-> (13 <= fin)%Z).
    { rewrite <- Z.le_succ_l. change (Z.succ 2) with 3%Z.
      rewrite Qfloor_ge. change (inject_Z 3) with 3.
      split; intros H.
      - destruct (Z.le_gt_cases 13 fin) as [Hle|Hgt]; [exact Hle|].
        assert (Hq : inject_Z fin <= 12).
        { change 12 with (inject_Z 12). rewrite <- Zle_Qle. lia. }
        lra.
      - assert (Hq : 13 <= inject_Z fin).
        { change 13 with (inject_Z 13). now rewrite <- Zle_Qle. }
        lra. }
    rewrite H. lia.
Qed.

Lemma video_calls_after_run_witness :
  outcome (slowLink tenProbes) initialState = Completed
  /\ download (metrics (after (slowLink tenProbes) initialState)) = 12%Z
  /\ uploadRatio (connection (slowLink tenProbes)) = 0.2
  /\ nth_error (QoS.getQoS (metrics (after (slowLink tenProbes)
                                           initialState))) 2
     = Some (QoS.mk "Video Calls" false).
Proof.
  split; [reflexivity|]. split; [reflexivity|]. split; [reflexivity|].
  destruct (video_calls_after_run (slowLink tenProbes) initialState eq_refl)
    as (verdict & Hnth & _ & Hslow).
  rewrite Hnth. f_equal. f_equal.
  destruct verdict; [|reflexivity].
  destruct (Hslow eq_refl) as [H _]. specialize (H eq_refl).
  vm_compute in H. now elim H.
Defined.
(** ** Release v3.0.0: the timer and the ramp *)

(** The ramp ends on the target, at the tick that reaches it. *)
Lemma ramp_shape (target : Z) :
  exists early,
    ramp 20 0 (inject_Z target / 20) target = early ++ [target]
    /\ S (length early) = ticksToTarget target.
Proof.
  unfold ticksToTarget. destruct (Z.ltb_spec 0 target) as [Hpos|Hneg].
  - exists (map (rampShown target) (seq 1 19)). split.
    + apply (ramp_from target Hpos 19 0); [reflexivity| |lia].
      unfold accumulated. change (inject_Z (Z.of_nat 0)) with 0. lra.
    + reflexivity.
  - exists []. split; [now apply ramp_at_once|reflexivity].
Qed.

(** What ramp firings do to the state: they touch the download figure and
    the progress bar only, and one firing is enough to bring a bar that
    stands at 59 or more to 60. *)
Lemma rampActions_effect (shown : list Z) (s : State) :
  let s' := exec (V30.rampActions shown) s in
  testing s' = testing s
  /\ history s' = history s
  /\ logs s' = logs s
  /\ upload (metrics s') = upload (metrics s)
  /\ download (metrics s') = last shown (download (metrics s))
  /\ (shown = [] -> progress s' = progress s)
  /\ (shown <> [] -> 59 <= progress s -> progress s' == 60).
Proof.
  cbn zeta. revert s. induction shown as [|v shown IH]; intros s.
  - cbn. repeat split; auto. intros H. now elim H.
  - change (V30.rampActions (v :: shown))
      with ([setMetrics (withDownload v); stepProgress 60]
              ++ V30.rampActions shown).
    rewrite exec_app.
    set (s1 := exec [setMetrics (withDownload v); stepProgress 60] s).
    destruct (IH s1) as (H1 & H2 & H3 & H4 & H5 & H6 & H7).
    assert (Hp : 59 <= progress s -> progress s1 == 60).
    { intros Hge. subst s1. cbn [exec fold_left apply progress].
      apply Q.min_r. lra. }
    repeat split; auto.
    + rewrite H5. subst s1. cbn [exec fold_left apply metrics].
      unfold withDownload. cbn [download].
      destruct shown as [|v' shown']; [reflexivity|].
      change (last (v :: v' :: shown') (download (metrics s)))
        with (last (v' :: shown') (download (metrics s))).
      apply last_cons_default.
    + discriminate.
    + intros _ Hge. destruct shown as [|v' shown'].
      * rewrite (H6 eq_refl). auto.
      * apply H7; [discriminate|]. rewrite (Hp Hge). lra.
Qed.

Lemma last_skipn {A : Type} (n : nat) (early : list A) (x d : A) :
  (n <= length early)%nat -> last (skipn n (early ++ [x])) d = x.
Proof.
  revert n. induction early as [|e early IH]; intros [|n] Hn;
    cbn [length] in Hn; try lia.
  - reflexivity.
  - cbn [app skipn]. apply (last_last (e :: early)).
  - cbn [app skipn]. apply IH. lia.
Qed.



(** ** The history over several runs, and across a reload *)

Lemma firstn_cons_firstn {A : Type} (x : A) (l : list A) :
  x :: firstn 9 l = firstn 10 (x :: l).
Proof. reflexivity. Qed.

Lemma saveAll_trimmed (calls : list (string * Z * string * Metrics))
      (prior : list SpeedTestResult.t) :
  saveAll calls (firstn 10 prior)
  = firstn 10 (rev (map entryOf calls) ++ prior).
Proof.
  revert prior. induction calls as [|[[[isp now] today] m] calls IH];
    intros prior; [reflexivity|].
  unfold saveAll. cbn [fold_left]. fold (saveAll calls).
  rewrite saveResult_cons, firstn_firstn. change (Nat.min 9 10) with 9%nat.
  rewrite firstn_cons_firstn, IH.
  cbn [map rev entryOf]. now rewrite <- app_assoc.
Qed.

(** Whatever the history held before, after a sequence of saves it is the
    ten most recent of the saved results, newest first, followed by as
    much of the prior history as still fits; from the tenth save on
    nothing of the prior history is left. *)
Theorem saveAll_keeps_latest_ten
        (calls : list (string * Z * string * Metrics))
        (prior : list SpeedTestResult.t) :
  calls <> [] ->
  saveAll calls prior = firstn 10 (rev (map entryOf calls) ++ prior)
  /\ ((10 <= length calls)%nat ->
      saveAll calls prior = firstn 10 (rev (map entryOf calls))).
Proof.
  intros Hne.
  assert (Hform : saveAll calls prior
                  = firstn 10 (rev (map entryOf calls) ++ prior)).
  { destruct calls as [|[[[isp now] today] m] calls]; [now elim Hne|].
    unfold saveAll. cbn [fold_left]. fold (saveAll calls).
    rewrite saveResult_cons, firstn_cons_firstn, saveAll_trimmed.
    cbn [map rev entryOf]. now rewrite <- app_assoc. }
  split; [exact Hform|].
  intros Hlen. rewrite Hform. rewrite firstn_app.
  replace (10 - length (rev (map entryOf calls)))%nat with 0%nat
    by (rewrite length_rev, length_map; lia).
  cbn [firstn]. apply app_nil_r.
Qed.

Lemma saveAll_keeps_latest_ten_witness :
  threeCalls <> []
  /\ saveAll threeCalls elevenEntries
     = firstn 10 (rev (map entryOf threeCalls) ++ elevenEntries)
  /\ map SpeedTestResult.id (saveAll threeCalls elevenEntries)
     = [3; 2; 1; 3; 11; 10; 9; 8; 7; 6]%Z.
Proof.
  split; [discriminate|].
  destruct (saveAll_keeps_latest_ten threeCalls elevenEntries) as [H _];
    [discriminate|].
  split; [exact H|reflexivity].
Defined.

Section Reload.

Variable JSON_parse : string -> option (list SpeedTestResult.t).
Variable JSON_stringify : list SpeedTestResult.t -> string.

(** [JSON.parse] rejects the empty text. *)
Hypothesis JSON_parse_empty : JSON_parse EmptyString = None.


End Reload.


(** ** The exported report *)

Module ReportFacts.

Import Report.
Local Open Scope string_scope.

Lemma occurrences_app (c : Ascii.ascii) (a b : string) :
  occurrences c (a ++ b) = (occurrences c a + occurrences c b)%nat.
Proof.
  induction a as [|ch a IH]; [reflexivity|].
  cbn [append occurrences]. destruct (Ascii.eqb ch c); lia.
Qed.

Lemma split_length (c : Ascii.ascii) (text : string) :
  length (split c text) = S (occurrences c text).
Proof.
  induction text as [|ch text IH]; [reflexivity|].
  cbn [split occurrences]. destruct (Ascii.eqb ch c).
  - cbn [length]. now rewrite IH.
  - destruct (split c text); [discriminate IH|exact IH].
Qed.

Lemma split_plain (c : Ascii.ascii) (a : string) :
  occurrences c a = 0%nat -> split c a = [a].
Proof.
  induction a as [|ch a IH]; [reflexivity|].
  cbn [split occurrences]. destruct (Ascii.eqb ch c); [discriminate|].
  intros H. now rewrite (IH H).
Qed.

Lemma split_app_plain (c : Ascii.ascii) (a b : string) :
  occurrences c a = 0%nat ->
  split c (a ++ b)
  = match split c b with
    | [] => [a]
    | piece :: pieces => (a ++ piece) :: pieces
    end.
Proof.
  induction a as [|ch a IH].
  - intros _. cbn [append]. pose proof (split_length c b) as H.
    destruct (split c b); [discriminate H|reflexivity].
  - cbn [append split occurrences].
    destruct (Ascii.eqb ch c); [discriminate|].
    intros H. rewrite (IH H). now destruct (split c b).
Qed.

Lemma append_empty (a : string) : a ++ EmptyString = a.
Proof. induction a as [|ch a IH]; [reflexivity|]. cbn. now rewrite IH. Qed.

Lemma split_app_sep (c : Ascii.ascii) (a b : string) :
  occurrences c a = 0%nat ->
  split c (a ++ String c b) = a :: split c b.
Proof.
  intros H. rewrite (split_app_plain c a _ H).
  cbn [split]. rewrite Ascii.eqb_refl. now rewrite append_empty.
Qed.

Lemma split_join (c : Ascii.ascii) (lines : list string) :
  lines <> [] ->
  Forall (fun l => occurrences c l = 0%nat) lines ->
  split c (join (String c EmptyString) lines) = lines.
Proof.
  induction lines as [|x lines IH]; [intros H; now elim H|].
  intros _ Hall. inversion Hall as [|? ? Hx Hrest]; subst.
  destruct lines as [|y lines].
  - cbn [join]. now apply split_plain.
  - change (join (String c EmptyString) (x :: y :: lines))
      with (x ++ String c (join (String c EmptyString) (y :: lines))).
    rewrite (split_app_sep c x _ Hx). f_equal.
    apply IH; [discriminate|exact Hrest].
Qed.

(** A number is written with digits and a sign only. *)
Lemma numberToString_plain (c : Ascii.ascii) (n : Z) :
  c = comma \/ c = newline -> occurrences c (numberToString n) = 0%nat.
Proof.
  intros Hc.
  assert (Huint : forall d, occurrences c (NilEmpty.string_of_uint d) = 0%nat).
  { induction d; cbn [NilEmpty.string_of_uint occurrences];
      [reflexivity|..];
      match goal with
      | |- (if ?b then _ else _) = _ =>
          replace b with false by (destruct Hc as [-> | ->]; reflexivity)
      end; exact IHd. }
  assert (Hzero : forall d, occurrences c (NilZero.string_of_uint d) = 0%nat).
  { intros d. unfold NilZero.string_of_uint.
    destruct d; try apply Huint. destruct Hc as [-> | ->]; reflexivity. }
  unfold numberToString, NilZero.string_of_int.
  destruct (Z.to_int n) as [d|d]; [apply Hzero|].
  cbn [occurrences].
  replace (Ascii.eqb _ c) with false
    by (destruct Hc as [-> | ->]; reflexivity).
  apply Hzero.
Qed.

Lemma line_five (c : Ascii.ascii) (a b d e f : string) :
  occurrences c (line [a; b; d; e; f])
  = (occurrences c a + occurrences c b + occurrences c d + occurrences c e
     + occurrences c f + (if Ascii.eqb comma c then 4 else 0))%nat.
Proof.
  unfold line. cbn [join]. rewrite !occurrences_app. cbn [occurrences].
  destruct (Ascii.eqb comma c); lia.
Qed.

End ReportFacts.

(** The header line of the report has five fields.  A data row has five
    fields and one more for every comma in the date and in the ISP name of
    the entry: neither is quoted. *)
Theorem report_row_fields (h : SpeedTestResult.t) :
  length (Report.split Report.comma (Report.line Report.headers)) = 5%nat
  /\ length (Report.split Report.comma (Report.line (Report.cells h)))
     = (5 + Report.occurrences Report.comma (SpeedTestResult.date h)
          + Report.occurrences Report.comma (SpeedTestResult.isp h))%nat.
Proof.
  split; [reflexivity|].
  rewrite ReportFacts.split_length. unfold Report.cells.
  rewrite ReportFacts.line_five.
  rewrite !ReportFacts.numberToString_plain by (now left).
  rewrite Ascii.eqb_refl. lia.
Qed.

(** A date as [toLocaleString()] writes it in the [en-US] locale holds a
    comma: the row of such an entry has six fields under five headers. *)
Example report_row_of_dated_entry :
  Report.split Report.comma (Report.line (Report.cells datedEntry))
  = ["1/1/2024"; " 10:00:04 AM"; "50"; "10"; "20"; "ExampleISP"]%string.
Proof. reflexivity. Qed.

(** When no date and no ISP name of the history holds a line break, the
    exported content reads back line by line: the first line is the media
    type prefix followed by the header line, and the lines after it are
    the rows of the entries, one for each entry and in the order of the
    history. *)
Theorem report_reads_back (history : list SpeedTestResult.t) :
  Forall (fun h =>
            Report.occurrences Report.newline (SpeedTestResult.date h) = 0%nat
            /\ Report.occurrences Report.newline (SpeedTestResult.isp h)
               = 0%nat) history ->
  Report.split Report.newline (Report.csvContent history)
  = (Report.prefix ++ Report.line Report.headers)%string
      :: map Report.line (map Report.cells history)
  /\ length (Report.split Report.newline (Report.csvContent history))
     = S (length history).
Proof.
  intros Hplain.
  assert (Hlines :
    Report.split Report.newline (Report.csvContent history)
    = (Report.prefix ++ Report.line Report.headers)%string
        :: map Report.line (map Report.cells history)).
  { unfold Report.csvContent, Report.table.
    rewrite ReportFacts.split_app_plain by reflexivity.
    rewrite ReportFacts.split_join; [reflexivity|discriminate|].
    constructor; [reflexivity|].
    induction Hplain as [|h history [Hd Hi] _ IH]; [constructor|].
    cbn [map]. constructor; [|exact IH].
    unfold Report.cells. rewrite ReportFacts.line_five.
    rewrite !ReportFacts.numberToString_plain by (now right).
    rewrite Hd, Hi. reflexivity. }
  split; [exact Hlines|].
  rewrite Hlines. cbn [length]. now rewrite !length_map.
Qed.

Lemma report_reads_back_witness :
  Report.split Report.newline (Report.csvContent [datedEntry; exportedEntry])
  = (Report.prefix ++ Report.line Report.headers)%string
      :: map Report.line (map Report.cells [datedEntry; exportedEntry])
  /\ length (Report.split Report.newline
               (Report.csvContent [datedEntry; exportedEntry]))
     = 3%nat.
Proof.
  apply (report_reads_back [datedEntry; exportedEntry]).
  repeat constructor.
Defined.

(** ** The traffic graph *)

Module TrafficFacts.

Import Traffic.

(** [toFixed(2)] moves a number by at most half a hundredth. *)
Lemma toFixed2_near (x : Q) :
  x - (1 # 200) <= toFixed2 x /\ toFixed2 x <= x + (1 # 200).
Proof.
  unfold toFixed2.
  destruct (JS.Qlt_bool x 0).
  - pose proof (Qfloor_le (- x * 100 + (1 # 2))) as Hlo.
    pose proof (Qlt_floor (- x * 100 + (1 # 2))) as Hhi.
    rewrite inject_Z_plus in Hhi. change (inject_Z 1) with 1 in Hhi.
    set (n := inject_Z (Qfloor (- x * 100 + (1 # 2)))) in *.
    assert (Hq : n / 100 == n * (1 # 100)) by field.
    rewrite Hq. split; lra.
  - pose proof (Qfloor_le (x * 100 + (1 # 2))) as Hlo.
    pose proof (Qlt_floor (x * 100 + (1 # 2))) as Hhi.
    rewrite inject_Z_plus in Hhi. change (inject_Z 1) with 1 in Hhi.
    set (n := inject_Z (Qfloor (x * 100 + (1 # 2)))) in *.
    assert (Hq : n / 100 == n * (1 # 100)) by field.
    rewrite Hq. split; lra.
Qed.

(** It keeps a number that is not negative between zero and the next
    hundredth above. *)
Lemma toFixed2_range (x : Q) (k : Z) :
  0 <= x -> x * 100 < inject_Z k + (1 # 2) ->
  0 <= toFixed2 x /\ toFixed2 x <= inject_Z k / 100.
Proof.
  intros Hx Hk. unfold toFixed2.
  assert (Hsign : JS.Qlt_bool x 0 = false) by now apply Qlt_bool_false.
  rewrite Hsign.
  pose proof (Qfloor_le (x * 100 + (1 # 2))) as Hle.
  assert (Hlo : (0 <= Qfloor (x * 100 + (1 # 2)))%Z).
  { apply Qfloor_ge. change (inject_Z 0) with 0. lra. }
  assert (Hhi : (Qfloor (x * 100 + (1 # 2)) <= k)%Z).
  { apply Z.lt_succ_r. rewrite Zlt_Qlt.
    eapply Qle_lt_trans; [exact Hle|].
    unfold Z.succ. rewrite inject_Z_plus. change (inject_Z 1) with 1. lra. }
  rewrite Zle_Qle in Hlo, Hhi. change (inject_Z 0) with 0 in Hlo.
  set (n := inject_Z (Qfloor (x * 100 + (1 # 2)))) in *.
  assert (Hq : n / 100 == n * (1 # 100)) by field.
  assert (Hq' : inject_Z k / 100 == inject_Z k * (1 # 100)) by field.
  rewrite Hq, Hq'. split; lra.
Qed.

Lemma slice_tail {A : Type} (arr : list A) :
  JS.slice 1 (Z.of_nat (length arr)) arr = skipn 1 arr.
Proof.
  unfold JS.slice. cbn [Z.ltb Z.compare].
  destruct (Z.ltb_spec (Z.of_nat (length arr)) 0) as [Hneg|_]; [lia|].
  rewrite (Z.min_id (Z.of_nat (length arr))).
  destruct arr as [|x rest]; [reflexivity|].
  rewrite Z.min_l by (cbn [length]; lia).
  change (Z.to_nat 1) with 1%nat. apply firstn_all2.
  rewrite length_skipn. cbn [length]. lia.
Qed.

(** One firing on a window of consecutive times. *)
Lemma update_slides (testing : bool) (metrics : Metrics) (d : draws)
      (prev : list point) (k n : nat) :
  map time prev = map Z.of_nat (seq k (S n)) ->
  exists win rates,
    updateTrafficGraph testing metrics d prev = Some (win, rates)
    /\ map time win = map Z.of_nat (seq (S k) (S n)).
Proof.
  intros Htimes.
  assert (Hlen : length prev = S n).
  { rewrite <- (length_map time), Htimes, length_map. apply length_seq. }
  unfold updateTrafficGraph.
  replace (length prev - 1)%nat with n by lia.
  destruct (nth_error prev n) as [final|] eqn:Hfinal.
  2:{ apply nth_error_None in Hfinal. lia. }
  assert (Htime : time final = Z.of_nat (k + n)).
  { pose proof (map_nth_error time n prev Hfinal) as Hnth.
    rewrite Htimes in Hnth.
    rewrite (map_nth_error Z.of_nat n (seq k (S n)) (d := (k + n)%nat))
      in Hnth.
    - now injection Hnth as <-.
    - rewrite nth_error_nth' with (d := 0%nat) by (rewrite length_seq; lia).
      now rewrite seq_nth by lia. }
  eexists. eexists. split; [reflexivity|].
  rewrite slice_tail, map_app, <- skipn_map, Htimes.
  change (skipn 1 (map Z.of_nat (seq k (S n))))
    with (map Z.of_nat (seq (S k) n)).
  rewrite (seq_S n (S k)), map_app. cbn [map time]. rewrite Htime.
  do 2 f_equal. lia.
Qed.

End TrafficFacts.

(** The graph window slides and never breaks.  From its initial window of
    [n] points, [n] being 40 or any other positive length, every firing
    of the interval succeeds, and after any number of firings the window
    still has [n] points, at consecutive times that start at the number
    of firings so far. *)
Theorem traffic_window_slides
        (n : nat) (firings : list (bool * Metrics * Traffic.draws)) :
  (0 < n)%nat ->
  exists win,
    Traffic.run firings (Traffic.initialWindow n) = Some win
    /\ length win = n
    /\ map Traffic.time win = map Z.of_nat (seq (length firings) n).
Proof.
  intros Hn. destruct n as [|n]; [lia|].
  assert (Hgen : forall k window,
            map Traffic.time window = map Z.of_nat (seq k (S n)) ->
            exists win,
              Traffic.run firings window = Some win
              /\ map Traffic.time win
                 = map Z.of_nat (seq (length firings + k) (S n))).
  { induction firings as [|[[testing metrics] d] firings IH];
      intros k window Htimes.
    - exists window. split; [reflexivity|exact Htimes].
    - destruct (TrafficFacts.update_slides testing metrics d window k n Htimes)
        as (win1 & rates & Hstep & Htimes1).
      destruct (IH (S k) win1 Htimes1) as (win & Hrun & Hwin).
      exists win. cbn [Traffic.run]. rewrite Hstep. split; [exact Hrun|].
      rewrite Hwin. cbn [length]. do 2 f_equal. lia. }
  destruct (Hgen 0%nat (Traffic.initialWindow (S n))) as (win & Hrun & Hwin).
  { unfold Traffic.initialWindow. rewrite map_map. reflexivity. }
  rewrite Nat.add_0_r in Hwin.
  exists win. split; [exact Hrun|]. split; [|exact Hwin].
  rewrite <- (length_map Traffic.time), Hwin, length_map. apply length_seq.
Qed.

Lemma traffic_window_slides_witness :
  exists win,
    Traffic.run [(false, clearMeasured (metrics initialState), halfDraws);
                 (true, mkMetrics 50 10 20 4 80, halfDraws)]
                (Traffic.initialWindow 40) = Some win
    /\ length win = 40%nat
    /\ map Traffic.time win = map Z.of_nat (seq 2 40).
Proof.
  apply (traffic_window_slides 40
           [(false, clearMeasured (metrics initialState), halfDraws);
            (true, mkMetrics 50 10 20 4 80, halfDraws)]).
  lia.
Defined.

(** The rates a firing shows.  While no test runs they are noise: a
    receive rate between 0 and 1 and a transmit rate between 0 and 0.3.
    While a test runs they follow the figures the closure holds, an
    eighth of the download and of the upload figure, from half a
    hundredth below to that much over the noise above: 0.5 for the
    receive and 0.2 for the transmit rate.  The point appended to the
    window carries the same two rates. *)
Theorem traffic_rates_bounded
        (testing : bool) (metrics : Metrics) (d : Traffic.draws)
        (prev win : list Traffic.point) (rx tx : Q) :
  Traffic.wellDrawn d ->
  Traffic.updateTrafficGraph testing metrics d prev = Some (win, (rx, tx)) ->
  (testing = false -> 0 <= rx <= 1 /\ 0 <= tx <= 3 # 10)
  /\ (testing = true ->
      inject_Z (download metrics) * (1 # 8) - (1 # 200) <= rx
      /\ rx <= inject_Z (download metrics) * (1 # 8) + (101 # 200)
      /\ inject_Z (upload metrics) * (1 # 8) - (1 # 200) <= tx
      /\ tx <= inject_Z (upload metrics) * (1 # 8) + (41 # 200))
  /\ exists newTime,
       last win (Traffic.mk 0 0 0) = Traffic.mk newTime tx rx.
Proof.
  intros (H1 & H2 & H3 & H4) Hstep.
  unfold Traffic.inUnit in H1, H2, H3, H4.
  unfold Traffic.updateTrafficGraph in Hstep.
  destruct (nth_error prev (length prev - 1)) as [final|]; [|discriminate].
  injection Hstep as Hwin Hrx Htx.
  split; [|split].
  - intros ->. subst rx tx. split.
    + destruct (TrafficFacts.toFixed2_range
                  (Traffic.recvIdle d * 0.5 + Traffic.recvNoise d * 0.5) 100)
        as [Ha Hb].
      * nra.
      * change (inject_Z 100) with 100. nra.
      * split; [exact Ha|]. eapply Qle_trans; [exact Hb|].
        apply Qle_bool_iff. reflexivity.
    + destruct (TrafficFacts.toFixed2_range
                  (Traffic.sentIdle d * 0.1 + Traffic.sentNoise d * 0.2) 30)
        as [Ha Hb].
      * nra.
      * change (inject_Z 30) with 30. nra.
      * split; [exact Ha|]. eapply Qle_trans; [exact Hb|].
        apply Qle_bool_iff. reflexivity.
  - intros ->. subst rx tx.
    pose proof (TrafficFacts.toFixed2_near
                  (inject_Z (download metrics) * 0.125
                   + Traffic.recvNoise d * 0.5)) as [Ha Hb].
    pose proof (TrafficFacts.toFixed2_near
                  (inject_Z (upload metrics) * 0.125
                   + Traffic.sentNoise d * 0.2)) as [Hc Hd].
    repeat split; lra.
  - subst win rx tx. eexists. rewrite last_last. reflexivity.
Qed.

Lemma traffic_rates_bounded_witness :
  Traffic.wellDrawn halfDraws
  /\ 0 <= 650 # 100 <= inject_Z 50 * (1 # 8) + (101 # 200)
  /\ exists newTime,
       last (skipn 1 (Traffic.initialWindow 40)
               ++ [Traffic.mk 40 (135 # 100) (650 # 100)])
            (Traffic.mk 0 0 0)
       = Traffic.mk newTime (135 # 100) (650 # 100).
Proof.
  assert (Hd : Traffic.wellDrawn halfDraws).
  { unfold Traffic.wellDrawn, Traffic.inUnit, halfDraws. cbn.
    repeat split; lra. }
  split; [exact Hd|].
  destruct (traffic_rates_bounded true (mkMetrics 50 10 20 4 80) halfDraws
              (Traffic.initialWindow 40)
              (skipn 1 (Traffic.initialWindow 40)
                 ++ [Traffic.mk 40 (135 # 100) (650 # 100)])
              (650 # 100) (135 # 100) Hd)
    as (_ & Hbusy & Hlast); [reflexivity|].
  destruct (Hbusy eq_refl) as (Ha & Hb & _).
  split; [|exact Hlast].
  split; [lra|exact Hb].
Defined.

(** ** Runs that do not complete *)

Lemma execStore_quiet (JSON_stringify : list SpeedTestResult.t -> string)
      (acts : list Action) :
  Forall quiet acts ->
  forall ls, execStore JSON_stringify acts ls = ls.
Proof.
  induction 1 as [|a acts Ha _ IH]; intros ls; [reflexivity|].
  rewrite execStore_cons, IH.
  destruct a; cbn in Ha; try contradiction; reflexivity.
Qed.

(** What the download loop leaves on display: the rounded mean of the
    speeds of the batches it consumed, when it consumed any. *)
Lemma downloadLoop_shows (script : list Probe) :
  forall (e : Q) (acc : list Q) (acts : list Action) (r : Phase (list Q)),
    downloadLoop script e acc = (acts, r) ->
    exists ds,
      (r = Throws -> exists rest, script = map Resolved ds ++ Rejected :: rest)
      /\ forall s,
           metrics (exec acts s)
           = match ds with
             | [] => metrics s
             | _ :: _ =>
                 withDownload
                   (JS.Math_round (JS.mean (acc ++ map speedOfBatch ds)))
                   (metrics s)
             end.
Proof.
  induction script as [|b script IH]; intros e acc acts r Hrun;
    cbn [downloadLoop] in Hrun;
    destruct (JS.Qlt_bool e durationLimit).
  - inversion Hrun; subst. exists []. split; [discriminate|reflexivity].
  - inversion Hrun; subst. exists []. split; [discriminate|reflexivity].
  - destruct b as [|elapsed].
    + inversion Hrun; subst. exists []. split; [|reflexivity].
      intros _. now exists script.
    + destruct (average (acc ++ [speedOfBatch elapsed])) as [avg|] eqn:Havg;
        [|now apply average_some in Havg].
      rewrite average_mean in Havg by (now destruct acc).
      injection Havg as <-.
      destruct (downloadLoop script (e + elapsed)
                  (acc ++ [speedOfBatch elapsed])) as [acts' r'] eqn:Hrec.
      inversion Hrun; subst.
      destruct (IH _ _ _ _ Hrec) as (ds & Hthrows & Hshown).
      exists (elapsed :: ds). split.
      * intros Hr. destruct (Hthrows Hr) as [rest ->]. now exists rest.
      * intros s. rewrite exec_cons, exec_cons, Hshown.
        destruct ds as [|d ds]; [reflexivity|].
        cbn [apply metrics]. unfold withDownload at 1. cbn [map].
        rewrite <- app_assoc. reflexivity.
  - inversion Hrun; subst. exists []. split; [discriminate|reflexivity].
Qed.

(** Only a completed run touches the history: every other run, however it
    ends, leaves the history of the component as it was and writes
    nothing to the storage. *)
Theorem history_changes_only_on_completion
        (JSON_stringify : list SpeedTestResult.t -> string)
        (w : World) (st : State) (ls : History.Storage) :
  outcome w st <> Completed ->
  history (after w st) = history st
  /\ execStore JSON_stringify (fst (runSpeedTest w st)) ls = ls.
Proof.
  unfold outcome, after, runSpeedTest.
  destruct (testing st); [now split|].
  destruct (latencyLoop 10 0 (latencyProbes w) []) as [a1 r] eqn:Hlat.
  pose proof (latencyLoop_quiet _ _ _ _ _ _ Hlat) as Q1.
  assert (Hearly : history (exec (prologue w ++ a1) st) = history st
                   /\ execStore JSON_stringify (prologue w ++ a1) ls = ls).
  { rewrite exec_app, execStore_app. split.
    - now destruct (exec_quiet _ Q1 (exec (prologue w) st)) as (_ & _ & ->).
    - now rewrite (execStore_quiet _ _ Q1). }
  destruct r as [pings| |]; [|intros _; exact Hearly ..].
  destruct (latencyStats pings) as [[avgPing jitter]|];
    [|intros _; exact Hearly].
  unfold tryBlock.
  destruct (downloadLoop (batches w) 0 []) as [a2 r2] eqn:Hloop.
  pose proof (downloadLoop_quiet _ _ _ _ _ Hloop) as Q2.
  assert (Hmid : forall tail,
            Forall quiet tail \/ tail = catchBlock w ->
            history (exec (prologue w ++ a1
                             ++ setMetrics (withLatency avgPing jitter)
                             :: a2 ++ tail) st) = history st
            /\ execStore JSON_stringify
                 (prologue w ++ a1 ++ setMetrics (withLatency avgPing jitter)
                             :: a2 ++ tail) ls = ls).
  { intros tail Htail.
    rewrite !exec_app, exec_cons, !exec_app.
    rewrite !execStore_app, execStore_cons, !execStore_app.
    rewrite (execStore_quiet _ _ Q1), (execStore_quiet _ _ Q2).
    set (s1 := exec a1 (exec (prologue w) st)).
    set (s2 := apply (setMetrics (withLatency avgPing jitter)) s1).
    assert (H2 : history (exec a2 s2) = history st).
    { destruct (exec_quiet _ Q2 s2) as (_ & _ & H3).
      destruct (exec_quiet _ Q1 (exec (prologue w) st)) as (_ & _ & H1).
      transitivity (history s2); [exact H3|].
      transitivity (history s1); [reflexivity|exact H1]. }
    destruct Htail as [Qt| ->].
    - rewrite (execStore_quiet _ _ Qt).
      destruct (exec_quiet _ Qt (exec a2 s2)) as (_ & _ & H4).
      split; [|reflexivity]. transitivity (history (exec a2 s2)); auto.
    - split; [exact H2|reflexivity]. }
  destruct r2 as [samples| |]; cbn [fst snd].
  - destruct (finalSpeed samples) as [fin|]; cbn [fst snd];
      [intros H; now elim H|].
    intros _. apply Hmid. now right.
  - intros _. apply Hmid. now right.
  - intros _. rewrite <- (app_nil_r a2). apply Hmid. left. constructor.
Qed.

Lemma history_changes_only_on_completion_witness :
  outcome secondBatchRejected busyState <> Completed
  /\ outcome secondBatchRejected initialState <> Completed
  /\ history (after secondBatchRejected initialState) = history initialState
  /\ execStore encodeSteady
               (fst (runSpeedTest secondBatchRejected initialState))
               storedHistory
     = storedHistory.
Proof.
  split; [discriminate|].
  assert (H : outcome secondBatchRejected initialState <> Completed)
    by discriminate.
  split; [exact H|].
  apply (history_changes_only_on_completion encodeSteady secondBatchRejected
           initialState storedHistory H).
Defined.



(** ** The verdicts as the figures improve *)

(** The verdicts are monotone in the throughput: with the same ping, a
    download and an upload figure that are both at least as high never
    turn a passing verdict into a failing one.  And whenever large files
    pass, so does 4K streaming. *)
Theorem getQoS_monotone (m m' : Metrics) :
  (download m <= download m')%Z ->
  (upload m <= upload m')%Z ->
  ping m = ping m' ->
  Forall2 (fun a b =>
             QoS.name a = QoS.name b
             /\ (QoS.pass a = true -> QoS.pass b = true))
          (QoS.getQoS m) (QoS.getQoS m')
  /\ (nth_error (map QoS.pass (QoS.getQoS m)) 3 = Some true ->
      nth_error (map QoS.pass (QoS.getQoS m)) 0 = Some true).
Proof.
  intros Hd Hu Hp. unfold QoS.getQoS. rewrite <- Hp. split.
  - repeat constructor; cbn [QoS.pass];
      rewrite ?andb_true_iff, ?Z.ltb_lt; intros; try split; lia.
  - cbn [map nth_error QoS.pass]. intros H. injection H as H.
    apply Z.ltb_lt in H. f_equal. apply Z.ltb_lt. lia.
Qed.

Lemma getQoS_monotone_witness :
  Forall2 (fun a b =>
             QoS.name a = QoS.name b
             /\ (QoS.pass a = true -> QoS.pass b = true))
          (QoS.getQoS (mkMetrics 50 10 20 4 80))
          (QoS.getQoS (mkMetrics 70 14 20 2 84))
  /\ (nth_error (map QoS.pass (QoS.getQoS (mkMetrics 50 10 20 4 80))) 3
      = Some true ->
      nth_error (map QoS.pass (QoS.getQoS (mkMetrics 50 10 20 4 80))) 0
      = Some true).
Proof.
  apply (getQoS_monotone (mkMetrics 50 10 20 4 80) (mkMetrics 70 14 20 2 84));
    [cbn; lia | cbn; lia | reflexivity].
Defined.

